(** * tg2md: Telegram JSON export to Obsidian Markdown

    A shallow embedding of [tg2md.py] and the properties of its
    post-content transformer.

    Conventions of the embedding.
    - A Python [str] is a [string]; its characters are the code points
      below 256.
    - A JSON object with a fixed schema is a record; a key that may be
      missing is an [option] field, and reading it when it is missing
      raises [KeyError].
    - A Python exception is the [Raise] arm of [result]. *)

From Stdlib Require Import String Ascii List ZArith Lia Bool.
From Stdlib Require Import DecimalString.
Import ListNotations.

Local Open Scope string_scope.
Local Open Scope Z_scope.

(** ** Exceptions *)

Inductive exn : Type :=
| KeyError (key : string)
| IndexError.

Inductive result (A : Type) : Type :=
| Ok (a : A)
| Raise (e : exn).

Arguments Ok {A} a.
Arguments Raise {A} e.

Definition bind {A B : Type} (r : result A) (k : A -> result B) : result B :=
  match r with
  | Ok a => k a
  | Raise e => Raise e
  end.

Definition fmap {A B : Type} (f : A -> B) (r : result A) : result B :=
  bind r (fun a => Ok (f a)).

Notation "x <- r ;; k" := (bind r (fun x => k))
  (at level 61, r at next level, right associativity).

(** ** Python built-ins used by the program *)

Module Py.

Definition LF : ascii := "010"%char.

(** [str.isspace] on one character, for code points below 256. *)
Definition isspace (c : ascii) : bool :=
  let n := nat_of_ascii c in
  ((9 <=? n) && (n <=? 13) || (28 <=? n) && (n <=? 32)
   || (n =? 133) || (n =? 160))%nat.

(** [str.isprintable] on one character, for code points below 256:
    everything but the control characters, the no-break space and the
    soft hyphen. *)
Definition isprintable (c : ascii) : bool :=
  let n := nat_of_ascii c in
  ((32 <=? n) && (n <=? 126) || (161 <=? n) && negb (n =? 173))%nat.

Fixpoint lstrip (s : string) : string :=
  match s with
  | EmptyString => EmptyString
  | String c s' => if isspace c then lstrip s' else s
  end.

Fixpoint rstrip (s : string) : string :=
  match s with
  | EmptyString => EmptyString
  | String c s' =>
      match rstrip s' with
      | EmptyString => if isspace c then EmptyString else String c EmptyString
      | r => String c r
      end
  end.

(** [s.strip()] *)
Definition strip (s : string) : string := rstrip (lstrip s).

(** [s.startswith(p)] *)
Definition startswith (p s : string) : bool := String.prefix p s.

(** [s.endswith(p)] *)
Definition endswith (p s : string) : bool :=
  let n := String.length s in
  let k := String.length p in
  ((k <=? n)%nat && String.eqb (substring (n - k) k s) p)%bool.

(** [s.split(sep)] for a one-character separator. *)
Fixpoint split (sep : ascii) (s : string) : list string :=
  match s with
  | EmptyString => [EmptyString]
  | String c s' =>
      if Ascii.eqb c sep then EmptyString :: split sep s'
      else match split sep s' with
           | [] => [String c EmptyString]
           | h :: t => String c h :: t
           end
  end.

(** [s.count(c)] for a one-character needle. *)
Fixpoint count (c : ascii) (s : string) : Z :=
  match s with
  | EmptyString => 0
  | String d s' => (if Ascii.eqb d c then 1 else 0) + count c s'
  end.

(** [l.count(x)] on a list of strings. *)
Fixpoint list_count (x : string) (l : list string) : Z :=
  match l with
  | [] => 0
  | y :: l' => (if String.eqb y x then 1 else 0) + list_count x l'
  end.

(** [len(l)] *)
Definition len {A : Type} (l : list A) : Z := Z.of_nat (List.length l).

(** [l[i]], a negative [i] counting from the end. *)
Definition getitem {A : Type} (l : list A) (i : Z) : result A :=
  let j := if i <? 0 then i + len l else i in
  if (j <? 0) || (len l <=? j) then Raise IndexError
  else match nth_error l (Z.to_nat j) with
       | Some x => Ok x
       | None => Raise IndexError
       end.

Fixpoint repeat_str (s : string) (n : nat) : string :=
  match n with
  | O => EmptyString
  | S n' => s ++ repeat_str s n'
  end.

(** [s * n]: empty when [n <= 0]. *)
Definition mul (s : string) (n : Z) : string := repeat_str s (Z.to_nat n).

(** A [bool] used as an [int]. *)
Definition int_of_bool (b : bool) : Z := if b then 1 else 0.

(** [s.replace(c, '')] for a one-character [c]. *)
Fixpoint remove (c : ascii) (s : string) : string :=
  match s with
  | EmptyString => EmptyString
  | String d s' => if Ascii.eqb d c then remove c s' else String d (remove c s')
  end.

(** [s.replace(c, d)] for one-character [c] and [d]. *)
Fixpoint replace (c d : ascii) (s : string) : string :=
  match s with
  | EmptyString => EmptyString
  | String e s' => String (if Ascii.eqb e c then d else e) (replace c d s')
  end.

(** [''.join(c for c in s if p(c))] *)
Fixpoint filter (p : ascii -> bool) (s : string) : string :=
  match s with
  | EmptyString => EmptyString
  | String c s' => if p c then String c (filter p s') else filter p s'
  end.

(** [p in s] for strings *)
Fixpoint contains (p s : string) : bool :=
  String.prefix p s
  || match s with
     | EmptyString => false
     | String _ s' => contains p s'
     end.

(** [str(n)] for an [int] *)
Definition str_int (n : Z) : string := NilZero.string_of_int (Z.to_int n).

(** [str(x)] where [x] is a string or [None] *)
Definition str_opt (x : option string) : string :=
  match x with
  | Some s => s
  | None => "None"
  end.

(** [s.zfill(w)]-like padding used by [datetime.__str__] *)
Definition zfill (w : nat) (s : string) : string :=
  repeat_str "0" (w - String.length s) ++ s.

(** [posixpath.join(a, b)] *)
Definition path_join (a b : string) : string :=
  if startswith "/" b then b
  else if String.eqb a "" || endswith "/" a then a ++ b
  else a ++ "/" ++ b.

End Py.

Definition NL : string := String Py.LF EmptyString.

(** ** Data model *)

(** An identifier as JSON has it: the export's [id] is a number, the
    alias given on the command line is a string. *)
Inductive ident : Type :=
| IdInt (n : Z)
| IdStr (s : string).

(** [str(x)] and [{x}] in a format string. *)
Definition str_ident (x : ident) : string :=
  match x with
  | IdInt n => Py.str_int n
  | IdStr s => s
  end.

(** [s in alias] for a string [s]: a number never equals a string. *)
Definition in_alias (s : string) (alias : list ident) : bool :=
  existsb (fun x => match x with
                    | IdInt _ => false
                    | IdStr t => String.eqb s t
                    end) alias.

(** A typed text run: [{"type": ..., "text": ..., "href": ...}]. *)
Record text_object : Type := {
  obj_type : string;
  obj_text : string;
  obj_href : option string
}.

Inductive text_item : Type :=
| ItemStr (s : string)
| ItemObj (obj : text_object).

(** The [text] field: a plain string or a sequence of items. *)
Inductive raw_text : Type :=
| TextStr (s : string)
| TextSeq (items : list text_item).

(** The value [datetime.fromisoformat] returns for a [date] field
    (no microseconds, no time zone, as in Telegram exports). *)
Record datetime : Type := {
  year : nat; month : nat; day : nat;
  hour : nat; minute : nat; second : nat
}.

(** [str(d)] for a [datetime]: [YYYY-MM-DD HH:MM:SS]. *)
Definition str_datetime (d : datetime) : string :=
  let f w n := Py.zfill w (NilZero.string_of_uint (Nat.to_uint n)) in
  f 4%nat (year d) ++ "-" ++ f 2%nat (month d) ++ "-" ++ f 2%nat (day d) ++ " "
  ++ f 2%nat (hour d) ++ ":" ++ f 2%nat (minute d) ++ ":" ++ f 2%nat (second d).

(** A post. The keys [type], [id], [date], [from] and [text] are there in
    every post of an export; [post_from] is [None] for JSON [null]. The
    last three fields are [None] when the key is missing. *)
Record post : Type := {
  post_type : string;
  post_id : Z;
  post_date : datetime;
  post_from : option string;
  post_text : raw_text;
  post_photo : option string;
  post_file : option string;
  post_reply_to_message_id : option Z
}.

Record export : Type := {
  data_id : ident;
  data_type : string;
  data_messages : list post
}.

(** The parsed command line. *)
Record arguments : Type := {
  args_alias : string;
  args_out_dir : string;
  args_photo_dir : string;
  args_media_dir : string
}.

(** [d[key]] for a key that may be missing. *)
Definition lookup {A : Type} (key : string) (field : option A) : result A :=
  match field with
  | Some v => Ok v
  | None => Raise (KeyError key)
  end.

(** ** The program *)

Definition simplify_name (name : string) : string :=
  Py.filter Py.isprintable name.

Definition unlinked_name (name : option string) : string :=
  match name with
  | Some (String c s) => Py.remove "]" (Py.remove "[" (String c s))
  | _ => ""
  end.

Definition print_default_post_header
    (post_title : Z) (date : datetime) (post_author post_tag : string) : string :=
  "---" ++ NL
  ++ "title: " ++ Py.str_int post_title ++ NL
  ++ "date: " ++ str_datetime date ++ NL
  ++ "author: " ++ post_author ++ NL
  ++ "tags: " ++ post_tag ++ NL
  ++ "---" ++ NL.

Definition parse_post_photo (p : post) (photo_dir : string) : result string :=
  photo <- lookup "photo" (post_photo p);;
  src <- Py.getitem (Py.split "/" photo) (-1);;
  Ok ("![image](" ++ src ++ ")" ++ NL ++ NL).

Definition parse_post_file (p : post) (photo_dir : string) : result string :=
  file <- lookup "file" (post_file p);;
  if Py.startswith "(File " file then Ok ""
  else
    src <- Py.getitem (Py.split "/" file) (-1);;
    Ok ("[[" ++ src ++ "]]" ++ NL ++ NL).

Definition text_format (s fmt : string) : string :=
  let output txt :=
    if existsb (String.eqb fmt) ["*"; "**"; "***"; "`"; "```"] then
      fmt ++ txt ++ fmt
    else if String.eqb fmt "```" then
      fmt ++ NL ++ txt ++ NL ++ fmt
    else
      "<" ++ fmt ++ ">" ++ txt ++ "</" ++ fmt ++ ">" in
  output (Py.strip s)
  ++ Py.mul (Py.mul NL (Py.list_count "" (Py.split Py.LF s)))
            (Py.int_of_bool (Py.endswith NL s)).

Definition text_link_format (text link : string) (alias : list ident)
  : result string :=
  let trailer :=
    Py.mul (Py.mul NL (Py.count Py.LF text))
           (Py.int_of_bool (Py.endswith NL text)) in
  let external := "[" ++ Py.strip text ++ "](" ++ link ++ ")" ++ trailer in
  if Py.startswith "https://t.me" link && (2 <? Py.len (Py.split "/" link)) then
    seg <- Py.getitem (Py.split "/" link) (-2);;
    if in_alias seg alias then
      href <- Py.getitem (Py.split "/" link) (-1);;
      Ok ("[[" ++ href ++ "|" ++ Py.strip text ++ "]]" ++ trailer)
    else Ok external
  else Ok external.

(** The result is [None] when the function falls off its last [elif]. *)
Definition parse_text_object (obj : text_object) (alias : list ident)
  : result (option string) :=
  let type := obj_type obj in
  let text := obj_text obj in
  if String.eqb type "hashtag" then
    Ok (Some text)
  else if String.eqb type "text_link" then
    href <- lookup "href" (obj_href obj);;
    fmap Some (text_link_format text href alias)
  else if String.eqb type "link" then
    if Py.startswith "https://t.me" text && (2 <? Py.len (Py.split "/" text)) then
      seg <- Py.getitem (Py.split "/" text) (-2);;
      if in_alias seg alias then
        last <- Py.getitem (Py.split "/" text) (-1);;
        Ok (Some ("[[" ++ last ++ "]]"))
      else Ok (Some text)
    else Ok (Some text)
  else if String.eqb type "email" then
    let link := Py.strip text in
    let link :=
      Py.mul (Py.mul "https://" (Py.int_of_bool (String.eqb type "link")))
             (1 - Py.int_of_bool (Py.startswith "https://" link))
      ++ link in
    Ok (Some ("<" ++ link ++ ">"))
  else if String.eqb type "phone" then
    Ok (Some text)
  else if String.eqb type "italic" then
    Ok (Some (text_format text "*"))
  else if String.eqb type "bold" then
    Ok (Some (text_format text "**"))
  else if String.eqb type "code" then
    Ok (Some (text_format text "`"))
  else if String.eqb type "pre" then
    Ok (Some (text_format text "```"))
  else if String.eqb type "underline" then
    Ok (Some (text_format text "u"))
  else if String.eqb type "strikethrough" then
    Ok (Some (text_format text "s"))
  else
    Ok None.

(** The loop of [parse_post_text], [acc] being [post_parsed_text]. *)
Fixpoint parse_items (items : list text_item) (alias : list ident)
    (acc : string) : result string :=
  match items with
  | [] => Ok acc
  | ItemStr s :: rest => parse_items rest alias (acc ++ s)
  | ItemObj obj :: rest =>
      r <- parse_text_object obj alias;;
      parse_items rest alias (acc ++ Py.str_opt r)
  end.

Definition parse_post_text (p : post) (alias : list ident) : result string :=
  match post_text p with
  | TextStr s => Ok s
  | TextSeq items => parse_items items alias ""
  end.

Definition parse_post_reply (p : post) (alias : list ident) : result string :=
  a <- Py.getitem alias (-1);;
  orig <- lookup "reply_to_message_id" (post_reply_to_message_id p);;
  Ok ("**" ++ unlinked_name (post_from p)
      ++ " [replied](https://t.me/" ++ str_ident a ++ "/" ++ Py.str_int (post_id p)
      ++ ") to [[" ++ Py.str_int orig ++ "|post]]**" ++ NL
      ++ "![[" ++ Py.str_int orig ++ "]]" ++ NL).

Definition post_header (p : post) (alias : list ident) : result string :=
  a <- Py.getitem alias (-1);;
  Ok ("**" ++ unlinked_name (post_from p)
      ++ " [wrote](https://t.me/" ++ str_ident a ++ "/" ++ Py.str_int (post_id p)
      ++ "):**" ++ NL).

Definition parse_post_media (p : post) (media_dir : string) (alias : list ident)
  : result string :=
  file <- lookup "file" (post_file p);;
  if Py.startswith "(File " file then Ok ""
  else
    src <- Py.getitem (Py.split "/" file) (-1);;
    Ok (NL ++ "![[" ++ src ++ "]]").

Definition parse_post (p : post) (photo_dir media_dir : string)
    (alias : list ident) : result string :=
  let post_output := "" in
  header <- match post_reply_to_message_id p with
            | Some _ => parse_post_reply p alias
            | None => post_header p alias
            end;;
  let post_output := post_output ++ header in
  photo <- match post_photo p with
           | Some _ => parse_post_photo p photo_dir
           | None => Ok ""
           end;;
  let post_output := post_output ++ photo in
  text <- parse_post_text p alias;;
  let post_output := post_output ++ text in
  media <- match post_file p with
           | Some _ => parse_post_media p media_dir alias
           | None => Ok ""
           end;;
  Ok (post_output ++ media).

(** ** The export walker

    What [main] does to the outside: lines printed, directories made,
    files written. *)

Record world : Type := {
  stdout : list string;
  dirs : list string;
  files : list (string * string)
}.

Definition empty_world : world := {| stdout := []; dirs := []; files := [] |}.

(** [print(line)] *)
Definition print (line : string) (w : world) : world :=
  {| stdout := stdout w ++ [line]; dirs := dirs w; files := files w |}.

(** [os.mkdir(d)] with [FileExistsError] caught *)
Definition mkdir (d : string) (w : world) : world :=
  if existsb (String.eqb d) (dirs w) then w
  else {| stdout := stdout w; dirs := dirs w ++ [d]; files := files w |}.

(** What a [with open(path, 'w')] block leaves in [path] *)
Definition write_file (path content : string) (w : world) : world :=
  {| stdout := stdout w; dirs := dirs w; files := files w ++ [(path, content)] |}.

(** [alias = [data['id']]; if args.alias: alias.append(args.alias)] *)
Definition make_alias (data : export) (args : arguments) : list ident :=
  [data_id data]
  ++ (if String.eqb (args_alias args) "" then [] else [IdStr (args_alias args)]).

(** [str(post_date)[0:7]] *)
Definition post_subpath (p : post) : string :=
  substring 0 7 (str_datetime (post_date p)).

(** The body of the loop for a post of type [message]: the new world, the
    new [lastmonth], and the exception that ended the run, if any. *)
Definition process_post (args : arguments) (data : export) (alias : list ident)
    (p : post) (lastmonth : string) (w : world)
  : world * string * option exn :=
  let post_author := unlinked_name (post_from p) in
  let post_nametag :=
    if Py.contains "channel" (data_type data) then ""
    else Py.replace " " "_" (simplify_name (unlinked_name (Some post_author))) in
  let post_filename := Py.str_int (post_id p) ++ ".md" in
  let subpath := post_subpath p in
  let w := mkdir (Py.path_join (args_out_dir args) subpath) w in
  let '(lastmonth, w) :=
    if negb (String.eqb subpath lastmonth) then (subpath, print subpath w)
    else (lastmonth, w) in
  let post_path :=
    Py.path_join (Py.path_join (args_out_dir args) subpath) post_filename in
  let front :=
    print_default_post_header (post_id p) (post_date p) post_author post_nametag
    ++ NL in
  match parse_post p (args_photo_dir args) (args_media_dir args) alias with
  | Ok body => (write_file post_path (front ++ body ++ NL) w, lastmonth, None)
  | Raise e => (write_file post_path front w, lastmonth, Some e)
  end.

(** [for post in raw_posts: ...] *)
Fixpoint walk (args : arguments) (data : export) (alias : list ident)
    (raw_posts : list post) (lastmonth : string) (w : world)
  : world * option exn :=
  match raw_posts with
  | [] => (w, None)
  | p :: rest =>
      if String.eqb (post_type p) "message" then
        match process_post args data alias p lastmonth w with
        | (w', lastmonth', None) => walk args data alias rest lastmonth' w'
        | (w', _, Some e) => (w', Some e)
        end
      else walk args data alias rest lastmonth w
  end.

(** [main()], after the command line is parsed and the JSON file loaded. *)
Definition main (data : export) (args : arguments) : world * option exn :=
  let w := mkdir (args_out_dir args) empty_world in
  let alias := make_alias data args in
  let lastmonth := "" in
  let raw_posts := data_messages data in
  match Py.getitem alias (-1) with
  | Raise e => (w, Some e)
  | Ok a =>
      let w :=
        print ("Processing " ++ Py.str_int (Py.len raw_posts)
               ++ " posts in " ++ str_ident a) w in
      walk args data alias raw_posts lastmonth w
  end.

(** * Vocabulary of the properties *)

(** Every character of [s] is whitespace. *)
Fixpoint all_space (s : string) : bool :=
  match s with
  | EmptyString => true
  | String c s' => Py.isspace c && all_space s'
  end.

(** [s] begins with a whitespace character. *)
Definition leading_space (s : string) : bool :=
  match s with
  | EmptyString => false
  | String c _ => Py.isspace c
  end.

(** [s] ends with a whitespace character. *)
Fixpoint trailing_space (s : string) : bool :=
  match s with
  | EmptyString => false
  | String c EmptyString => Py.isspace c
  | String _ s' => trailing_space s'
  end.

(** The pieces of a split, joined by the separator, are the string. *)
Fixpoint join (sep : ascii) (l : list string) : string :=
  match l with
  | [] => ""
  | [x] => x
  | x :: l' => x ++ String sep (join sep l')
  end.

(** [s.split(sep)[-1]]: what follows the last separator. *)
Definition last_segment (s : string) : string := nth 0 (rev (Py.split "/" s)) "".

(** [s.split(sep)[-2]] *)
Definition second_to_last_segment (s : string) : string :=
  nth 1 (rev (Py.split "/" s)) "".

(** The link points into this channel: it starts with the channel's web
    prefix, splits at [/] into more than two segments, and its
    second-to-last segment is one of the aliases. *)
Definition self_referential (href : string) (alias : list ident) : Prop :=
  Py.startswith "https://t.me" href = true
  /\ (2 < List.length (Py.split "/" href))%nat
  /\ In (IdStr (second_to_last_segment href)) alias.

(** The newlines put back after the stripped display text: one per newline
    of the text, when the text ends with one. *)
Definition link_trailer (text : string) : string :=
  Py.mul NL (Py.count Py.LF text * Py.int_of_bool (Py.endswith NL text)).

(** The number of [c] characters [s] ends with. *)
Fixpoint trailing_count (c : ascii) (s : string) : nat :=
  match s with
  | EmptyString => O
  | String d s' =>
      if Nat.eqb (trailing_count c s') (String.length s') && Ascii.eqb d c
      then S (trailing_count c s')
      else trailing_count c s'
  end.

(** The marker of an emphasis run. *)
Definition marker (type : string) : string :=
  if String.eqb type "italic" then "*"
  else if String.eqb type "bold" then "**"
  else if String.eqb type "code" then "`"
  else "```".

(** The number of newlines appended to an emphasis run: the number of empty
    lines of the text times whether the text ends with a newline. *)
Definition appended_newlines (text : string) : Z :=
  Py.list_count "" (Py.split Py.LF text) * Py.int_of_bool (Py.endswith NL text).

(** [body] is [text] without the whitespace at its two ends. *)
Definition stripped (text body : string) : Prop :=
  exists l r : string,
    text = l ++ body ++ r
    /\ all_space l = true /\ all_space r = true
    /\ leading_space body = false /\ trailing_space body = false.

(** What each wrapping run type puts before and after its text. *)
Definition wrappers : list (string * (string * string)) :=
  [("italic", ("*", "*")); ("bold", ("**", "**"));
   ("code", ("`", "`")); ("pre", ("```", "```"));
   ("underline", ("<u>", "</u>")); ("strikethrough", ("<s>", "</s>"))].

(** The run types [parse_text_object] knows. *)
Definition known_types : list string :=
  ["hashtag"; "text_link"; "link"; "email"; "phone"; "italic"; "bold";
   "code"; "pre"; "underline"; "strikethrough"].

(** The image reference of a post: empty without a [photo] field. *)
Definition photo_block (p : post) : string :=
  match post_photo p with
  | Some photo => "![image](" ++ last_segment photo ++ ")" ++ NL ++ NL
  | None => ""
  end.

(** The file reference of a post: empty without a [file] field and for the
    placeholder of a file that was not exported. *)
Definition media_block (p : post) : string :=
  match post_file p with
  | Some file =>
      if Py.startswith "(File " file then ""
      else NL ++ "![[" ++ last_segment file ++ "]]"
  | None => ""
  end.

(** The header of a post, [a] being the alias its link is built from. *)
Definition header_block (p : post) (a : ident) : string :=
  let author := unlinked_name (post_from p) in
  let link := "https://t.me/" ++ str_ident a ++ "/" ++ Py.str_int (post_id p) in
  match post_reply_to_message_id p with
  | Some orig =>
      "**" ++ author ++ " [replied](" ++ link ++ ") to [["
      ++ Py.str_int orig ++ "|post]]**" ++ NL
      ++ "![[" ++ Py.str_int orig ++ "]]" ++ NL
  | None =>
      "**" ++ author ++ " [wrote](" ++ link ++ "):**" ++ NL
  end.

(** The same post with another [file] field. *)
Definition set_file (p : post) (file : option string) : post :=
  {| post_type := post_type p; post_id := post_id p;
     post_date := post_date p; post_from := post_from p;
     post_text := post_text p; post_photo := post_photo p;
     post_file := file;
     post_reply_to_message_id := post_reply_to_message_id p |}.

(** The alias of the links the program writes: the user's when there is
    one, else the export's own id. *)
Definition canonical_alias (data : export) (args : arguments) : ident :=
  if String.eqb (args_alias args) "" then data_id data
  else IdStr (args_alias args).

Definition is_message (p : post) : bool := String.eqb (post_type p) "message".

(** The labels to report for a sequence of year-month buckets: a bucket is
    reported when it is not the bucket of the post before ([prev], [None]
    before the first post). *)
Fixpoint entered_buckets (prev : option string) (buckets : list string)
  : list string :=
  match buckets with
  | [] => []
  | m :: rest =>
      let same := match prev with
                  | Some q => String.eqb m q
                  | None => false
                  end in
      if same then entered_buckets (Some m) rest
      else m :: entered_buckets (Some m) rest
  end.

(** The buckets of the posts the walker processes, in the export's order. *)
Definition message_buckets (data : export) : list string :=
  map post_subpath (filter is_message (data_messages data)).

(** The line printed before the first post, for a count of [n]. *)
Definition processing_line (n : Z) (a : ident) : string :=
  "Processing " ++ Py.str_int n ++ " posts in " ++ str_ident a.

(** No label follows itself: [l] starts with another month than [prev],
    and so on along [l]. *)
Fixpoint changes (prev : option string) (l : list string) : Prop :=
  match l with
  | [] => True
  | m :: rest => prev <> Some m /\ changes (Some m) rest
  end.

(** * Sample inputs *)

Definition bold_run : text_object :=
  {| obj_type := "bold"; obj_text := "hi" ++ NL ++ NL; obj_href := None |}.

Definition pre_run : text_object :=
  {| obj_type := "pre"; obj_text := "code" ++ NL; obj_href := None |}.

Definition email_run : text_object :=
  {| obj_type := "email"; obj_text := " user@example.com "; obj_href := None |}.

Definition mention_run : text_object :=
  {| obj_type := "mention"; obj_text := "@bob"; obj_href := None |}.

Definition plain_post (text : raw_text) : post :=
  {| post_type := "message"; post_id := 1;
     post_date := {| year := 2021; month := 3; day := 5;
                     hour := 12; minute := 0; second := 0 |};
     post_from := Some "Alice"; post_text := text;
     post_photo := None; post_file := None;
     post_reply_to_message_id := None |}.

Definition file_post : post :=
  set_file (plain_post (TextStr "Hello")) (Some "files/a.pdf").

Definition dated_post (type : string) (id : Z) (y m : nat) : post :=
  {| post_type := type; post_id := id;
     post_date := {| year := y; month := m; day := 5;
                     hour := 12; minute := 0; second := 0 |};
     post_from := Some "Alice"; post_text := TextStr "Hello";
     post_photo := None; post_file := None;
     post_reply_to_message_id := None |}.

Definition sample_export : export :=
  {| data_id := IdInt 1234567;
     data_type := "public_channel";
     data_messages := [dated_post "message" 1 2021 4;
                       dated_post "service" 2 2021 4;
                       dated_post "message" 3 2021 3] |}.

Definition sample_arguments : arguments :=
  {| args_alias := "mychannel"; args_out_dir := "posts";
     args_photo_dir := "photos"; args_media_dir := "files" |}.

(** * Further vocabulary *)

From Stdlib Require DecimalZ DecimalNat.

(** Every character of [s] is printable. *)
Fixpoint all_printable (s : string) : bool :=
  match s with
  | EmptyString => true
  | String c s' => Py.isprintable c && all_printable s'
  end.

(** The tag [main] writes in the front matter of a post. *)
Definition nametag (data : export) (p : post) : string :=
  if Py.contains "channel" (data_type data) then ""
  else Py.replace " " "_"
         (simplify_name (unlinked_name (Some (unlinked_name (post_from p))))).

(** The segments of [l], each followed by the separator: what stands
    before the last segment of a path. *)
Fixpoint dir_prefix (sep : ascii) (l : list string) : string :=
  match l with
  | [] => ""
  | x :: l' => x ++ String sep (dir_prefix sep l')
  end.

(** The same post with another [text] field. *)
Definition set_text (p : post) (text : raw_text) : post :=
  {| post_type := post_type p; post_id := post_id p;
     post_date := post_date p; post_from := post_from p;
     post_text := text; post_photo := post_photo p;
     post_file := post_file p;
     post_reply_to_message_id := post_reply_to_message_id p |}.

(** Some run of type [text_link] among [items] has no [href] key. *)
Definition href_missing (items : list text_item) : Prop :=
  exists obj : text_object,
    In (ItemObj obj) items /\ obj_type obj = "text_link" /\ obj_href obj = None.

(** The folder of a post: the output folder and the post's bucket. *)
Definition bucket_dir (args : arguments) (p : post) : string :=
  Py.path_join (args_out_dir args) (post_subpath p).

(** The file of a post. *)
Definition post_path (args : arguments) (p : post) : string :=
  Py.path_join (bucket_dir args p) (Py.str_int (post_id p) ++ ".md").

(** The front matter of a post. *)
Definition front_matter (data : export) (p : post) : string :=
  print_default_post_header (post_id p) (post_date p)
    (unlinked_name (post_from p)) (nametag data p).

(** The body [main] asks [parse_post] for. *)
Definition render (args : arguments) (alias : list ident) (p : post)
  : result string :=
  parse_post p (args_photo_dir args) (args_media_dir args) alias.

(** What is left in the file of a post: the front matter and a newline,
    then the body and a newline unless rendering the body failed. *)
Definition file_content (data : export) (args : arguments)
    (alias : list ident) (p : post) : string :=
  (front_matter data p ++ NL)
  ++ match render args alias p with
     | Ok body => body ++ NL
     | Raise _ => ""
     end.

(** The posts the walker opens a file for: those of type [message], up to
    and including the first whose body fails. *)
Fixpoint attempted (args : arguments) (alias : list ident)
    (posts : list post) : list post :=
  match posts with
  | [] => []
  | p :: rest =>
      if is_message p then
        p :: match render args alias p with
             | Ok _ => attempted args alias rest
             | Raise _ => []
             end
      else attempted args alias rest
  end.

(** The exception that ends the walk, if any. *)
Fixpoint failure (args : arguments) (alias : list ident)
    (posts : list post) : option exn :=
  match posts with
  | [] => None
  | p :: rest =>
      if is_message p then
        match render args alias p with
        | Ok _ => failure args alias rest
        | Raise e => Some e
        end
      else failure args alias rest
  end.

(** The folders after [os.mkdir(d)]. *)
Definition add_dir (ds : list string) (d : string) : list string :=
  if existsb (String.eqb d) ds then ds else (ds ++ [d])%list.

(** The same export with other messages. *)
Definition set_messages (data : export) (messages : list post) : export :=
  {| data_id := data_id data; data_type := data_type data;
     data_messages := messages |}.

(** The last character of a string. *)
Fixpoint last_char (s : string) : option ascii :=
  match s with
  | EmptyString => None
  | String c EmptyString => Some c
  | String _ s' => last_char s'
  end.

(** The output folder as it stands before a bucket in a path: followed by
    a slash unless it is empty or ends with one. *)
Definition folder_prefix (out_dir : string) : string :=
  if String.eqb out_dir "" || Py.endswith "/" out_dir then out_dir
  else out_dir ++ "/".

(** The number a string of digits writes. *)
Definition decode_decimal (s : string) : nat :=
  match NilEmpty.uint_of_string s with
  | Some d => Nat.of_uint d
  | None => O
  end.

(** [n] written on at least [w] digits, as in a date. *)
Definition padded (w n : nat) : string :=
  Py.zfill w (NilZero.string_of_uint (Nat.to_uint n)).

(** * Further sample inputs *)

Definition link_run : text_object :=
  {| obj_type := "link"; obj_text := "https://t.me/mychannel/42";
     obj_href := None |}.

Definition numeric_export : export :=
  {| data_id := IdInt 1234567; data_type := "public_channel";
     data_messages := [] |}.

Definition default_arguments : arguments :=
  {| args_alias := ""; args_out_dir := "posts";
     args_photo_dir := "photos"; args_media_dir := "files" |}.

Definition broken_link_run : text_object :=
  {| obj_type := "text_link"; obj_text := "post"; obj_href := None |}.

(** An export whose second message cannot be rendered. *)
Definition broken_export : export :=
  {| data_id := IdInt 1234567;
     data_type := "private_supergroup";
     data_messages :=
       [dated_post "message" 1 2021 3;
        set_text (dated_post "message" 2 2021 4)
                 (TextSeq [ItemStr "see "; ItemObj broken_link_run]);
        dated_post "message" 3 2021 5] |}.

Definition march_post : post := dated_post "message" 17 2021 3.

Definition late_march_post : post :=
  {| post_type := "message"; post_id := 18;
     post_date := {| year := 2021; month := 3; day := 31;
                     hour := 23; minute := 59; second := 59 |};
     post_from := None; post_text := TextStr "";
     post_photo := None; post_file := None;
     post_reply_to_message_id := None |}.

Definition padded_bold_run : text_object :=
  {| obj_type := "bold"; obj_text := "hi " ++ NL ++ NL; obj_href := None |}.

(** * Properties *)

(** ** Strings *)

Section Strings.

Lemma append_nil_r (s : string) : s ++ "" = s.
Proof. induction s as [|c s IH]; simpl; [reflexivity | now rewrite IH]. Qed.

Lemma append_assoc (s t u : string) : (s ++ t) ++ u = s ++ (t ++ u).
Proof. induction s as [|c s IH]; simpl; [reflexivity | now rewrite IH]. Qed.

Lemma length_append (s t : string) :
  String.length (s ++ t) = (String.length s + String.length t)%nat.
Proof. induction s as [|c s IH]; simpl; [reflexivity | now rewrite IH]. Qed.

Lemma length_repeat_str (c : ascii) (n : nat) :
  String.length (Py.repeat_str (String c "") n) = n.
Proof. induction n as [|n IH]; simpl; [reflexivity | now rewrite IH]. Qed.

Lemma repeat_str_nil (n : nat) : Py.repeat_str "" n = "".
Proof. induction n as [|n IH]; simpl; [reflexivity | exact IH]. Qed.

Lemma repeat_str_add (s : string) (n m : nat) :
  Py.repeat_str s (n + m) = Py.repeat_str s n ++ Py.repeat_str s m.
Proof.
  induction n as [|n IH]; simpl; [reflexivity|].
  now rewrite IH, append_assoc.
Qed.

Lemma repeat_str_mul (s : string) (n m : nat) :
  Py.repeat_str (Py.repeat_str s n) m = Py.repeat_str s (n * m).
Proof.
  induction m as [|m IH]; simpl.
  - now rewrite Nat.mul_0_r.
  - rewrite IH, <- repeat_str_add. f_equal. lia.
Qed.

(** [s * a * b] is [s * (a * b)] when [a] is not negative. *)
Lemma mul_mul (s : string) (a b : Z) :
  0 <= a -> Py.mul (Py.mul s a) b = Py.mul s (a * b).
Proof.
  intros Ha. unfold Py.mul. rewrite repeat_str_mul. f_equal.
  destruct b as [|q|q].
  - now rewrite Z.mul_0_r, Nat.mul_0_r.
  - rewrite Z2Nat.inj_mul by lia. reflexivity.
  - destruct a as [|q'|q']; simpl; [reflexivity | now rewrite Nat.mul_0_r | lia].
Qed.

Lemma count_nonneg (c : ascii) (s : string) : 0 <= Py.count c s.
Proof. induction s as [|d s IH]; simpl; [lia | destruct (Ascii.eqb d c); lia]. Qed.

Lemma list_count_nonneg (x : string) (l : list string) : 0 <= Py.list_count x l.
Proof. induction l as [|y l IH]; simpl; [lia | destruct (String.eqb y x); lia]. Qed.

Lemma list_count_pos (x : string) (l : list string) :
  0 < Py.list_count x l <-> In x l.
Proof.
  induction l as [|y l IH]; simpl.
  - split; [lia | tauto].
  - pose proof (list_count_nonneg x l) as Hc.
    destruct (String.eqb_spec y x) as [->|Hne].
    + split; [auto | lia].
    + rewrite Z.add_0_l, IH. split; [auto | intros [E|E]; [congruence | exact E]].
Qed.

End Strings.

(** ** Whitespace stripping *)

Section Strip.

Lemma lstrip_decompose (s : string) :
  exists l, s = l ++ Py.lstrip s /\ all_space l = true.
Proof.
  induction s as [|c s [l [Hs Hl]]]; simpl.
  - now exists "".
  - destruct (Py.isspace c) eqn:Hc.
    + exists (String c l). simpl. rewrite Hc, Hl. split; [now f_equal | reflexivity].
    + now exists "".
Qed.

Lemma lstrip_leading (s : string) : leading_space (Py.lstrip s) = false.
Proof.
  induction s as [|c s IH]; simpl; [reflexivity|].
  destruct (Py.isspace c) eqn:Hc; [exact IH | simpl; exact Hc].
Qed.

Lemma rstrip_decompose (s : string) :
  exists r, s = Py.rstrip s ++ r /\ all_space r = true.
Proof.
  induction s as [|c s [r [Hs Hr]]]; simpl.
  - now exists "".
  - destruct (Py.rstrip s) as [|d t] eqn:Ht.
    + destruct (Py.isspace c) eqn:Hc.
      * exists (String c r). simpl in *. rewrite Hc, Hr. split; [now f_equal | reflexivity].
      * exists r. simpl in *. split; [now f_equal | exact Hr].
    + exists r. split; [simpl in *; now f_equal | exact Hr].
Qed.

Lemma rstrip_trailing (s : string) : trailing_space (Py.rstrip s) = false.
Proof.
  induction s as [|c s IH]; simpl; [reflexivity|].
  destruct (Py.rstrip s) as [|d t] eqn:Ht.
  - destruct (Py.isspace c) eqn:Hc; simpl; [reflexivity | exact Hc].
  - exact IH.
Qed.

Lemma rstrip_leading (s : string) :
  leading_space s = false -> leading_space (Py.rstrip s) = false.
Proof.
  destruct s as [|c s]; simpl; [reflexivity|].
  intros Hc. destruct (Py.rstrip s); [rewrite Hc|]; simpl; [exact Hc | exact Hc].
Qed.

(** [strip] removes a run of whitespace at each end, and no more. *)
Lemma strip_spec (s : string) :
  exists l r,
    s = l ++ Py.strip s ++ r
    /\ all_space l = true /\ all_space r = true
    /\ leading_space (Py.strip s) = false
    /\ trailing_space (Py.strip s) = false.
Proof.
  destruct (lstrip_decompose s) as [l [Hs Hl]].
  destruct (rstrip_decompose (Py.lstrip s)) as [r [Hm Hr]].
  exists l, r. unfold Py.strip. repeat split; try assumption.
  - now rewrite <- Hm.
  - apply rstrip_leading, lstrip_leading.
  - apply rstrip_trailing.
Qed.

(** A string without whitespace at either end is left as it is. *)
Lemma strip_id (s : string) :
  leading_space s = false -> trailing_space s = false -> Py.strip s = s.
Proof.
  intros Hl Ht. unfold Py.strip.
  assert (E : Py.lstrip s = s).
  { destruct s as [|c s]; simpl in *; [reflexivity | now rewrite Hl]. }
  rewrite E. clear Hl E.
  induction s as [|c s IH]; simpl; [reflexivity|].
  destruct s as [|d s].
  - simpl in *. now rewrite Ht.
  - rewrite IH by exact Ht. reflexivity.
Qed.

Lemma lstrip_all_space (s : string) : all_space s = true -> Py.lstrip s = "".
Proof.
  induction s as [|c s IH]; simpl; [reflexivity|].
  intros H. apply andb_prop in H. destruct H as [Hc Hs]. rewrite Hc. now apply IH.
Qed.

Lemma rstrip_all_space (s : string) : all_space s = true -> Py.rstrip s = "".
Proof.
  induction s as [|c s IH]; simpl; [reflexivity|].
  intros H. apply andb_prop in H. destruct H as [Hc Hs].
  now rewrite (IH Hs), Hc.
Qed.

Lemma lstrip_app (l s : string) :
  all_space l = true -> Py.lstrip (l ++ s) = Py.lstrip s.
Proof.
  induction l as [|c l IH]; simpl; [reflexivity|].
  intros H. apply andb_prop in H. destruct H as [Hc Hl]. rewrite Hc. now apply IH.
Qed.

Lemma rstrip_app (b r : string) :
  all_space r = true -> Py.rstrip (b ++ r) = Py.rstrip b.
Proof.
  intros Hr. induction b as [|c b IH]; simpl.
  - now apply rstrip_all_space.
  - now rewrite IH.
Qed.

Lemma rstrip_id (s : string) : trailing_space s = false -> Py.rstrip s = s.
Proof.
  induction s as [|c s IH]; simpl; [reflexivity|].
  destruct s as [|d s].
  - simpl. now intros ->.
  - intros Ht. now rewrite (IH Ht).
Qed.

(** What [strip] returns is the only string the text can be stripped to. *)
Lemma stripped_unique (text body : string) :
  stripped text body -> body = Py.strip text.
Proof.
  intros (l & r & -> & Hl & Hr & Hb & He). unfold Py.strip.
  rewrite (lstrip_app l _ Hl). destruct body as [|c body].
  - simpl. now rewrite (lstrip_all_space r Hr).
  - simpl in Hb. cbn [append Py.lstrip]. rewrite Hb.
    change (String c (body ++ r)) with (String c body ++ r).
    now rewrite (rstrip_app _ r Hr), (rstrip_id _ He).
Qed.

End Strip.

(** ** Indexing from the end and splitting *)

Section Indexing.

Context {A : Type}.

Lemma getitem_snoc (l : list A) (x : A) : Py.getitem (l ++ [x]) (-1) = Ok x.
Proof.
  unfold Py.getitem, Py.len. rewrite length_app. simpl List.length.
  replace (-1 <? 0) with true by reflexivity.
  destruct (_ || _) eqn:E.
  - apply orb_true_iff in E. destruct E as [E|E]; [apply Z.ltb_lt in E | apply Z.leb_le in E]; lia.
  - replace (Z.to_nat _) with (List.length l + 0)%nat by lia.
    now rewrite nth_error_app2, Nat.add_sub_swap, Nat.sub_diag by lia.
Qed.

Lemma getitem_snoc2 (l : list A) (x y : A) : Py.getitem (l ++ [x; y]) (-2) = Ok x.
Proof.
  unfold Py.getitem, Py.len. rewrite length_app. simpl List.length.
  replace (-2 <? 0) with true by reflexivity.
  destruct (_ || _) eqn:E.
  - apply orb_true_iff in E. destruct E as [E|E]; [apply Z.ltb_lt in E | apply Z.leb_le in E]; lia.
  - replace (Z.to_nat _) with (List.length l + 0)%nat by lia.
    now rewrite nth_error_app2, Nat.add_sub_swap, Nat.sub_diag by lia.
Qed.

(** [l[-1]] is the first element of the reversed list. *)
Lemma getitem_neg1 (l : list A) (d : A) :
  l <> [] -> Py.getitem l (-1) = Ok (nth 0 (rev l) d).
Proof.
  intros Hl. destruct (exists_last Hl) as [l' [x ->]].
  now rewrite getitem_snoc, rev_app_distr.
Qed.

(** [l[-2]] is the second element of the reversed list. *)
Lemma getitem_neg2 (l : list A) (d : A) :
  (2 <= List.length l)%nat -> Py.getitem l (-2) = Ok (nth 1 (rev l) d).
Proof.
  intros Hl.
  assert (H1 : l <> []) by (destruct l; simpl in Hl; [lia | discriminate]).
  destruct (exists_last H1) as [l1 [y ->]].
  rewrite length_app in Hl. simpl in Hl.
  assert (H2 : l1 <> []) by (destruct l1; simpl in Hl; [lia | discriminate]).
  destruct (exists_last H2) as [l2 [x ->]].
  rewrite <- app_assoc. simpl. rewrite getitem_snoc2.
  now rewrite rev_app_distr.
Qed.

(** [l[-1]] raises on the empty list only. *)
Lemma getitem_nil (i : Z) : Py.getitem (@nil A) i = Raise IndexError.
Proof.
  unfold Py.getitem, Py.len. simpl List.length.
  destruct (_ || _) eqn:E; [reflexivity|].
  apply orb_false_iff in E. destruct E as [E1 E2].
  apply Z.ltb_ge in E1. apply Z.leb_gt in E2.
  change (Z.of_nat 0) with 0 in *. destruct (i <? 0); lia.
Qed.

End Indexing.

Lemma split_nonempty (sep : ascii) (s : string) : Py.split sep s <> [].
Proof.
  destruct s as [|c s]; simpl; [discriminate|].
  destruct (Ascii.eqb c sep); [discriminate|].
  destruct (Py.split sep s); discriminate.
Qed.

Lemma join_split (sep : ascii) (s : string) : join sep (Py.split sep s) = s.
Proof.
  induction s as [|c s IH]; [reflexivity|].
  simpl Py.split. destruct (Ascii.eqb_spec c sep) as [->|Hne].
  - pose proof (split_nonempty sep s) as Hn.
    destruct (Py.split sep s) as [|h t]; [congruence|].
    change (join sep ("" :: h :: t)) with (String sep (join sep (h :: t))).
    now rewrite IH.
  - pose proof (split_nonempty sep s) as Hn.
    destruct (Py.split sep s) as [|h t]; [congruence|].
    destruct t as [|h' t]; simpl in *; now rewrite IH.
Qed.

(** No piece of a split holds the separator. *)
Lemma split_no_sep (sep : ascii) (s x : string) :
  In x (Py.split sep s) -> Py.count sep x = 0.
Proof.
  revert x. induction s as [|c s IH]; intros x Hx.
  - simpl in Hx. destruct Hx as [<-|[]]. reflexivity.
  - simpl in Hx. destruct (Ascii.eqb c sep) eqn:Hc.
    + destruct Hx as [<-|Hx]; [reflexivity | now apply IH].
    + pose proof (split_nonempty sep s) as Hn.
      destruct (Py.split sep s) as [|h t]; [congruence|].
      destruct Hx as [<-|Hx].
      * simpl. rewrite Hc. apply IH. now left.
      * apply IH. now right.
Qed.

Lemma getitem_split_last (s : string) :
  Py.getitem (Py.split "/" s) (-1) = Ok (last_segment s).
Proof. apply getitem_neg1, split_nonempty. Qed.

Lemma last_segment_no_slash (s : string) : Py.count "/" (last_segment s) = 0.
Proof.
  apply (split_no_sep "/"%char s). unfold last_segment.
  pose proof (split_nonempty "/" s) as Hn.
  apply in_rev. destruct (rev (Py.split "/" s)) as [|x l] eqn:E.
  - apply (f_equal (@rev string)) in E. rewrite rev_involutive in E. now subst.
  - now left.
Qed.

Lemma in_alias_iff (s : string) (alias : list ident) :
  in_alias s alias = true <-> In (IdStr s) alias.
Proof.
  unfold in_alias. rewrite existsb_exists. split.
  - intros [[n|t] [Hin Heq]]; [discriminate|].
    apply String.eqb_eq in Heq. now subst.
  - intros Hin. exists (IdStr s). split; [exact Hin | apply String.eqb_refl].
Qed.

(** ** Link Resolver *)

Lemma text_link_format_internal (text href : string) (alias : list ident) :
  self_referential href alias ->
  text_link_format text href alias
  = Ok ("[[" ++ last_segment href ++ "|" ++ Py.strip text ++ "]]"
        ++ link_trailer text).
Proof.
  intros (Hp & Hn & Hin). unfold text_link_format.
  rewrite mul_mul by apply count_nonneg. fold (link_trailer text).
  rewrite Hp.
  replace (2 <? Py.len (Py.split "/" href)) with true
    by (symmetry; apply Z.ltb_lt; unfold Py.len; lia).
  cbn [andb]. rewrite (getitem_neg2 _ "") by lia. cbn [bind].
  fold (second_to_last_segment href).
  rewrite (proj2 (in_alias_iff _ _) Hin), getitem_split_last.
  reflexivity.
Qed.

Lemma text_link_format_external (text href : string) (alias : list ident) :
  ~ self_referential href alias ->
  text_link_format text href alias
  = Ok ("[" ++ Py.strip text ++ "](" ++ href ++ ")" ++ link_trailer text).
Proof.
  intros Hno. unfold text_link_format.
  rewrite mul_mul by apply count_nonneg. fold (link_trailer text).
  destruct (Py.startswith "https://t.me" href) eqn:Hp; [|reflexivity].
  destruct (2 <? Py.len (Py.split "/" href)) eqn:Hn; [|reflexivity].
  apply Z.ltb_lt in Hn. unfold Py.len in Hn.
  cbn [andb]. rewrite (getitem_neg2 _ "") by lia. cbn [bind].
  fold (second_to_last_segment href).
  destruct (in_alias (second_to_last_segment href) alias) eqn:Hin; [|reflexivity].
  exfalso. apply Hno. repeat split; [exact Hp | lia | now apply in_alias_iff].
Qed.

Lemma split_length_cons (sep c : ascii) (s : string) :
  List.length (Py.split sep (String c s))
  = if Ascii.eqb c sep then S (List.length (Py.split sep s))
    else List.length (Py.split sep s).
Proof.
  simpl. pose proof (split_nonempty sep s) as Hn.
  destruct (Ascii.eqb c sep); [reflexivity|].
  destruct (Py.split sep s); [congruence | reflexivity].
Qed.

(** A link with the channel's prefix always has more than two segments:
    the length test never decides. *)
Lemma prefix_gives_segments (href : string) :
  Py.startswith "https://t.me" href = true ->
  (2 < List.length (Py.split "/" href))%nat.
Proof.
  unfold Py.startswith. intros H.
  do 8 (destruct href as [|? href]; [discriminate H|];
        simpl in H;
        match type of H with
        | (if ?d then _ else _) = true =>
            destruct d as [E|E]; [subst | discriminate H]
        end).
  rewrite !split_length_cons. cbn [Ascii.eqb Bool.eqb].
  pose proof (split_nonempty "/" href) as Hn.
  destruct (Py.split "/" href); [congruence | simpl; lia].
Qed.

(** C1, as amended. The Link Resolver emits the wiki cross-reference
    [[[<trailing segment>|<display text>]]] for a self-referential link and
    the external link [[<display text>](<href>)] for any other, where the
    display text is emitted stripped of leading and trailing whitespace and
    is followed by one newline per newline of the display text when the
    display text ends with a newline. With an alias set containing
    [mychannel] and display text [post], the href
    [https://t.me/mychannel/42] gives [[[42|post]]] and the href
    [https://example.com/x] gives [[post](https://example.com/x)]. *)
Theorem text_link_format_resolves :
  (forall (text href : string) (alias : list ident),
      (self_referential href alias ->
       text_link_format text href alias
       = Ok ("[[" ++ last_segment href ++ "|" ++ Py.strip text ++ "]]"
             ++ link_trailer text))
      /\ (~ self_referential href alias ->
          text_link_format text href alias
          = Ok ("[" ++ Py.strip text ++ "](" ++ href ++ ")"
                ++ link_trailer text)))
  /\ (forall before after : list ident,
         text_link_format "post" "https://t.me/mychannel/42"
                          (before ++ IdStr "mychannel" :: after)
         = Ok "[[42|post]]")
  /\ (forall alias : list ident,
         text_link_format "post" "https://example.com/x" alias
         = Ok "[post](https://example.com/x)").
Proof.
  split; [|split].
  - intros text href alias. split.
    + apply text_link_format_internal.
    + apply text_link_format_external.
  - intros before after. rewrite text_link_format_internal.
    + reflexivity.
    + repeat split; [simpl; lia | apply in_elt].
  - intros alias. rewrite text_link_format_external.
    + reflexivity.
    + intros (Hp & _). discriminate Hp.
Qed.

(** C1 as stated fails: a display text with a leading blank is not emitted
    as it is. *)
Lemma text_link_format_not_verbatim :
  ~ self_referential "https://example.com/x" [IdStr "mychannel"]
  /\ text_link_format " post" "https://example.com/x" [IdStr "mychannel"]
     = Ok "[post](https://example.com/x)"
  /\ text_link_format " post" "https://example.com/x" [IdStr "mychannel"]
     <> Ok ("[" ++ " post" ++ "](" ++ "https://example.com/x" ++ ")").
Proof.
  split; [|split].
  - intros (Hp & _). discriminate Hp.
  - reflexivity.
  - discriminate.
Qed.

(** ** Text-Run Formatter *)

Lemma trailing_count_le (c : ascii) (s : string) :
  (trailing_count c s <= String.length s)%nat.
Proof.
  induction s as [|d s IH]; simpl; [lia|].
  destruct (_ && _); lia.
Qed.

Lemma trailing_count_repeat (c : ascii) (n : nat) :
  trailing_count c (Py.repeat_str (String c "") n) = n.
Proof.
  induction n as [|n IH]; simpl; [reflexivity|].
  now rewrite IH, length_repeat_str, Nat.eqb_refl, Ascii.eqb_refl.
Qed.

(** After a body that does not end with [c], the trailing [c]s are the
    appended ones. *)
Lemma trailing_count_after (c d : ascii) (body : string) (n : nat) :
  d <> c ->
  trailing_count c ((body ++ String d "") ++ Py.repeat_str (String c "") n) = n.
Proof.
  intros Hd. induction body as [|e body IH]; simpl.
  - rewrite trailing_count_repeat, length_repeat_str, Nat.eqb_refl.
    apply Ascii.eqb_neq in Hd. now rewrite Hd.
  - rewrite IH.
    replace (Nat.eqb n _) with false; [reflexivity|].
    symmetry. apply Nat.eqb_neq.
    rewrite !length_append, length_repeat_str. simpl. lia.
Qed.

Lemma text_format_marker (text fmt : string) :
  In fmt ["*"; "**"; "***"; "`"; "```"] ->
  text_format text fmt
  = fmt ++ Py.strip text ++ fmt ++ Py.mul NL (appended_newlines text).
Proof.
  intros Hin. unfold text_format.
  rewrite mul_mul by apply list_count_nonneg. fold (appended_newlines text).
  replace (existsb _ _) with true.
  - now rewrite !append_assoc.
  - symmetry. apply existsb_exists. exists fmt. split; [exact Hin | apply String.eqb_refl].
Qed.

Lemma text_format_tag (text fmt : string) :
  In fmt ["u"; "s"] ->
  text_format text fmt
  = ("<" ++ fmt ++ ">") ++ Py.strip text ++ ("</" ++ fmt ++ ">")
    ++ Py.mul NL (appended_newlines text).
Proof.
  intros Hin. unfold text_format.
  rewrite mul_mul by apply list_count_nonneg. fold (appended_newlines text).
  destruct Hin as [<-|[<-|[]]]; cbn [existsb String.eqb Ascii.eqb Bool.eqb orb];
    now rewrite !append_assoc.
Qed.

(** The fenced-block arm of [text_format] is never taken: the test before
    it already accepts the triple backquote. *)
Lemma text_format_pre (text : string) :
  text_format text "```"
  = "```" ++ Py.strip text ++ "```" ++ Py.mul NL (appended_newlines text).
Proof. apply text_format_marker. simpl. tauto. Qed.

Lemma parse_text_object_emphasis (obj : text_object) (alias : list ident) :
  In (obj_type obj) ["italic"; "bold"; "code"; "pre"] ->
  parse_text_object obj alias
  = Ok (Some (marker (obj_type obj) ++ Py.strip (obj_text obj)
              ++ marker (obj_type obj)
              ++ Py.mul NL (appended_newlines (obj_text obj)))).
Proof.
  intros Hin. unfold parse_text_object.
  destruct Hin as [H|[H|[H|[H|[]]]]]; rewrite <- H;
    cbn -[text_format Py.strip Py.mul appended_newlines];
    rewrite text_format_marker by (simpl; tauto); reflexivity.
Qed.

Lemma marker_last (type : string) :
  exists pre d, marker type = pre ++ String d "" /\ d <> Py.LF.
Proof.
  unfold marker.
  destruct (String.eqb type "italic"); [exists "", "*"%char; split; [reflexivity | discriminate]|].
  destruct (String.eqb type "bold"); [exists "*", "*"%char; split; [reflexivity | discriminate]|].
  destruct (String.eqb type "code"); [exists "", "`"%char; split; [reflexivity | discriminate]|].
  exists "``", "`"%char; split; [reflexivity | discriminate].
Qed.

Lemma appended_newlines_pos (text : string) :
  0 < appended_newlines text
  <-> In "" (Py.split Py.LF text) /\ Py.endswith NL text = true.
Proof.
  unfold appended_newlines. rewrite <- list_count_pos.
  pose proof (list_count_nonneg "" (Py.split Py.LF text)) as Hc.
  destruct (Py.endswith NL text); simpl.
  - rewrite Z.mul_1_r. tauto.
  - rewrite Z.mul_0_r. split; [lia | intros [_ H]; discriminate H].
Qed.

(** C4. The output for an italic, bold, code or pre run is the
    marker-wrapped body followed by exactly (number of empty lines in the
    newline-split of the text) times (1 if the text ends with a newline,
    else 0) newline characters, and it ends with exactly that many
    newlines; so newlines are appended exactly when the split has an empty
    line and the text ends with a newline. *)
Theorem emphasis_trailing_newlines (obj : text_object) (alias : list ident) :
  In (obj_type obj) ["italic"; "bold"; "code"; "pre"] ->
  exists out : string,
    parse_text_object obj alias = Ok (Some out)
    /\ out = (marker (obj_type obj) ++ Py.strip (obj_text obj)
              ++ marker (obj_type obj))
             ++ Py.repeat_str NL (Z.to_nat (appended_newlines (obj_text obj)))
    /\ trailing_count Py.LF out = Z.to_nat (appended_newlines (obj_text obj))
    /\ (0 < appended_newlines (obj_text obj)
        <-> In "" (Py.split Py.LF (obj_text obj))
            /\ Py.endswith NL (obj_text obj) = true).
Proof.
  intros Hin.
  eexists. split; [apply parse_text_object_emphasis, Hin|].
  split; [unfold Py.mul; now rewrite !append_assoc|].
  split; [|apply appended_newlines_pos].
  destruct (marker_last (obj_type obj)) as (pre & d & Hm & Hd).
  set (m := marker (obj_type obj)) in *.
  set (body := Py.strip (obj_text obj)).
  set (k := Z.to_nat (appended_newlines (obj_text obj))).
  replace (m ++ body ++ m ++ Py.mul NL (appended_newlines (obj_text obj)))
    with (((m ++ body ++ pre) ++ String d "") ++ Py.repeat_str (String Py.LF "") k).
  - now apply trailing_count_after.
  - rewrite !append_assoc. do 2 f_equal. now rewrite Hm, append_assoc.
Qed.

Lemma emphasis_trailing_newlines_witness :
  In (obj_type bold_run) ["italic"; "bold"; "code"; "pre"]
  /\ exists out : string,
      parse_text_object bold_run [] = Ok (Some out)
      /\ out = "**hi**" ++ NL ++ NL
      /\ trailing_count Py.LF out = 2%nat.
Proof.
  assert (Hin : In (obj_type bold_run) ["italic"; "bold"; "code"; "pre"])
    by (simpl; tauto).
  split; [exact Hin|].
  destruct (emphasis_trailing_newlines bold_run [] Hin) as (out & H1 & H2 & H3 & _).
  exists out. split; [exact H1 | split; [exact H2 | exact H3]].
Defined.

(** C2. For the run of type [pre] with text [code] and a newline the
    formatter returns the code between triple backquotes on one line,
    followed by a newline; it does not return the fenced block with the
    code on a line of its own. *)
Theorem pre_run_not_fenced (alias : list ident) :
  parse_text_object pre_run alias = Ok (Some ("```code```" ++ NL))
  /\ parse_text_object pre_run alias
     <> Ok (Some ("```" ++ NL ++ "code" ++ NL ++ "```")).
Proof. split; [reflexivity | discriminate]. Qed.

(** C7. For a run of type email the output is the stripped text between
    angle brackets; no scheme prefix is added, whether or not the text has
    one. For a text without whitespace at its ends it is the text itself
    between angle brackets. *)
Theorem email_autolink (obj : text_object) (alias : list ident) :
  obj_type obj = "email" ->
  parse_text_object obj alias = Ok (Some ("<" ++ Py.strip (obj_text obj) ++ ">"))
  /\ (leading_space (obj_text obj) = false ->
      trailing_space (obj_text obj) = false ->
      parse_text_object obj alias = Ok (Some ("<" ++ obj_text obj ++ ">"))).
Proof.
  intros Hty.
  assert (E : parse_text_object obj alias
              = Ok (Some ("<" ++ Py.strip (obj_text obj) ++ ">"))).
  { unfold parse_text_object. rewrite Hty.
    cbn [String.eqb Ascii.eqb Bool.eqb Py.int_of_bool].
    change (Py.mul "https://" 0) with "".
    unfold Py.mul. now rewrite repeat_str_nil. }
  split; [exact E|].
  intros Hl Ht. now rewrite E, strip_id.
Qed.

Lemma email_autolink_witness :
  parse_text_object email_run [] = Ok (Some "<user@example.com>").
Proof. exact (proj1 (email_autolink email_run [] eq_refl)). Defined.

Lemma parse_text_object_wrapped (obj : text_object) (alias : list ident)
    (before after : string) :
  In (obj_type obj, (before, after)) wrappers ->
  parse_text_object obj alias
  = Ok (Some (before ++ Py.strip (obj_text obj) ++ after
              ++ Py.mul NL (appended_newlines (obj_text obj)))).
Proof.
  intros Hin. unfold wrappers in Hin.
  destruct Hin as [H|[H|[H|[H|[H|[H|[]]]]]]];
    injection H as Hty <- <-.
  1-4: rewrite parse_text_object_emphasis by (rewrite <- Hty; simpl; tauto);
       now rewrite <- Hty.
  all: unfold parse_text_object; rewrite <- Hty;
    cbn -[text_format Py.strip Py.mul appended_newlines];
    rewrite text_format_tag by (simpl; tauto); reflexivity.
Qed.

Lemma self_referential_dec (href : string) (alias : list ident) :
  {self_referential href alias} + {~ self_referential href alias}.
Proof.
  unfold self_referential.
  destruct (Py.startswith "https://t.me" href);
    [|right; intros (H & _); discriminate H].
  destruct (lt_dec 2 (List.length (Py.split "/" href)));
    [|right; intros (_ & H & _); contradiction].
  destruct (in_alias (second_to_last_segment href) alias) eqn:E.
  - left. repeat split; [assumption | now apply in_alias_iff].
  - right. intros (_ & _ & H). apply in_alias_iff in H. congruence.
Qed.

Lemma parse_text_object_text_link (obj : text_object) (alias : list ident)
    (href : string) :
  obj_type obj = "text_link" ->
  obj_href obj = Some href ->
  parse_text_object obj alias
  = fmap Some (text_link_format (obj_text obj) href alias).
Proof.
  intros Hty Hh. unfold parse_text_object. rewrite Hty, Hh. reflexivity.
Qed.

(** C10. For a run of type italic, bold, code, pre, underline or
    strikethrough, what stands between the wrapping markers or tags is the
    run's text without its leading and trailing whitespace, the one string
    the text can be stripped to; the display text inside the output for a
    text_link run is stripped the same way. *)
Theorem formatted_text_is_stripped (obj : text_object) (alias : list ident) :
  exists body : string,
    body = Py.strip (obj_text obj)
    /\ stripped (obj_text obj) body
    /\ (forall other : string, stripped (obj_text obj) other -> other = body)
    /\ (forall before after : string,
           In (obj_type obj, (before, after)) wrappers ->
           parse_text_object obj alias
           = Ok (Some (before ++ body ++ after
                       ++ Py.mul NL (appended_newlines (obj_text obj)))))
    /\ (forall href : string,
           obj_type obj = "text_link" ->
           obj_href obj = Some href ->
           exists before after : string,
             (before = "[[" ++ last_segment href ++ "|" /\ after = "]]"
              \/ before = "[" /\ after = "](" ++ href ++ ")")
             /\ parse_text_object obj alias
                = Ok (Some (before ++ body ++ after
                            ++ link_trailer (obj_text obj)))).
Proof.
  exists (Py.strip (obj_text obj)).
  split; [reflexivity|]. split; [apply strip_spec|].
  split; [intros other; apply stripped_unique|]. split.
  - intros before after. apply parse_text_object_wrapped.
  - intros href Hty Hh.
    rewrite (parse_text_object_text_link obj alias href Hty Hh).
    destruct (self_referential_dec href alias) as [Hs|Hs].
    + exists ("[[" ++ last_segment href ++ "|"), "]]".
      split; [left; split; reflexivity|].
      rewrite text_link_format_internal by exact Hs.
      cbn [fmap bind]. now rewrite !append_assoc.
    + exists "[", ("](" ++ href ++ ")").
      split; [right; split; reflexivity|].
      rewrite text_link_format_external by exact Hs.
      cbn [fmap bind]. now rewrite !append_assoc.
Qed.

(** ** Post-Text Assembler *)

(** A run of any other type makes [parse_text_object] return [None]. *)
Lemma parse_text_object_unknown (obj : text_object) (alias : list ident) :
  ~ In (obj_type obj) known_types ->
  parse_text_object obj alias = Ok None.
Proof.
  intros Hno. unfold parse_text_object.
  repeat match goal with
         | |- context [String.eqb (obj_type obj) ?k] =>
             destruct (String.eqb_spec (obj_type obj) k) as [E|_];
             [exfalso; apply Hno; rewrite E; simpl; tauto|]
         end.
  reflexivity.
Qed.

(** The assembler appends the text [None] for such a run. *)
Lemma parse_items_unknown (obj : text_object) (rest : list text_item)
    (alias : list ident) (acc : string) :
  ~ In (obj_type obj) known_types ->
  parse_items (ItemObj obj :: rest) alias acc
  = parse_items rest alias (acc ++ "None").
Proof.
  intros Hno. simpl. now rewrite parse_text_object_unknown.
Qed.

(** C3. A run of a type outside the enumerated set is not dropped: the
    assembled text of [a], a mention run, [b] is [aNoneb], not the [ab] of
    the same text without the run. *)
Theorem unknown_run_not_dropped (alias : list ident) :
  ~ In (obj_type mention_run) known_types
  /\ parse_post_text
       (plain_post (TextSeq [ItemStr "a"; ItemObj mention_run; ItemStr "b"]))
       alias
     = Ok "aNoneb"
  /\ parse_post_text (plain_post (TextSeq [ItemStr "a"; ItemStr "b"])) alias
     = Ok "ab".
Proof.
  split; [|split; reflexivity].
  simpl. intros H. repeat destruct H as [H|H]; try discriminate H. exact H.
Qed.

(** C9. When the [text] field of a post is a plain string, the assembler
    returns that string, whatever it holds. *)
Theorem parse_post_text_plain (p : post) (alias : list ident) (s : string) :
  post_text p = TextStr s ->
  parse_post_text p alias = Ok s.
Proof. intros H. unfold parse_post_text. now rewrite H. Qed.

Lemma parse_post_text_plain_witness :
  parse_post_text (plain_post (TextStr " *Hello* ")) [] = Ok " *Hello* ".
Proof.
  exact (parse_post_text_plain (plain_post (TextStr " *Hello* ")) []
           " *Hello* " eq_refl).
Defined.

(** ** Post Renderer *)

Lemma parse_post_blocks (p : post) (photo_dir media_dir : string)
    (init : list ident) (a : ident) :
  parse_post p photo_dir media_dir (init ++ [a])
  = fmap (fun text => header_block p a ++ photo_block p ++ text ++ media_block p)
         (parse_post_text p (init ++ [a])).
Proof.
  unfold parse_post, parse_post_reply, post_header, parse_post_photo,
    parse_post_media, header_block, photo_block, media_block, lookup.
  rewrite getitem_snoc.
  destruct (post_reply_to_message_id p) as [orig|];
    destruct (post_photo p) as [photo|];
    destruct (post_file p) as [file|];
    cbn [bind fmap]; rewrite ?getitem_split_last; cbn [bind];
    destruct (parse_post_text p (init ++ [a])) as [text|e]; cbn [bind fmap];
    try destruct (Py.startswith "(File " file); cbn [bind fmap];
    rewrite ?append_assoc, ?append_nil_r; reflexivity.
Qed.

(** Without an alias there is no header, and no post. *)
Lemma parse_post_no_alias (p : post) (photo_dir media_dir : string) :
  parse_post p photo_dir media_dir [] = Raise IndexError.
Proof.
  unfold parse_post, parse_post_reply, post_header.
  rewrite getitem_nil. now destruct (post_reply_to_message_id p).
Qed.

Lemma remove_count (c : ascii) (s : string) : Py.count c (Py.remove c s) = 0.
Proof.
  induction s as [|d s IH]; simpl; [reflexivity|].
  destruct (Ascii.eqb d c) eqn:E; simpl; [exact IH | now rewrite E, IH].
Qed.

Lemma remove_keeps_count (c d : ascii) (s : string) :
  Py.count d s = 0 -> Py.count d (Py.remove c s) = 0.
Proof.
  induction s as [|e s IH]; simpl; [reflexivity|].
  pose proof (count_nonneg d s) as Hn.
  destruct (Ascii.eqb e d) eqn:Ed; [lia|]. rewrite Z.add_0_l. intros H.
  destruct (Ascii.eqb e c); simpl; [|rewrite Ed]; now apply IH.
Qed.

(** The author holds no square bracket, and is the [from] field without
    its square brackets. *)
Lemma unlinked_name_spec (name : option string) :
  unlinked_name name
  = match name with
    | Some s => Py.remove "]" (Py.remove "[" s)
    | None => ""
    end
  /\ Py.count "[" (unlinked_name name) = 0
  /\ Py.count "]" (unlinked_name name) = 0.
Proof.
  assert (E : unlinked_name name
              = match name with
                | Some s => Py.remove "]" (Py.remove "[" s)
                | None => ""
                end) by (destruct name as [[|c s]|]; reflexivity).
  split; [exact E|]. rewrite E. destruct name as [s|]; [|split; reflexivity].
  split; [apply remove_keeps_count | ]; apply remove_count.
Qed.

Lemma make_alias_last (data : export) (args : arguments) :
  exists init : list ident,
    make_alias data args = (init ++ [canonical_alias data args])%list.
Proof.
  unfold make_alias, canonical_alias.
  destruct (String.eqb (args_alias args) "").
  - now exists [].
  - now exists [data_id data].
Qed.

(** C5. A post gets one header, before everything else: the reply header
    when it has a [reply_to_message_id], the normal header otherwise. The
    alias in its link is the last element of the alias set, which for the
    set [main] builds is the user's alias when one is given and the
    export's id otherwise; the author is the [from] field without square
    brackets. *)
Theorem post_header_selection (p : post) (photo_dir media_dir : string)
    (init : list ident) (a : ident) :
  let author :=
    match post_from p with
    | Some s => Py.remove "]" (Py.remove "[" s)
    | None => ""
    end in
  let link := "https://t.me/" ++ str_ident a ++ "/" ++ Py.str_int (post_id p) in
  let header :=
    match post_reply_to_message_id p with
    | Some orig =>
        "**" ++ author ++ " [replied](" ++ link ++ ") to [["
        ++ Py.str_int orig ++ "|post]]**" ++ NL
        ++ "![[" ++ Py.str_int orig ++ "]]" ++ NL
    | None =>
        "**" ++ author ++ " [wrote](" ++ link ++ "):**" ++ NL
    end in
  parse_post p photo_dir media_dir (init ++ [a])
  = fmap (fun text => header ++ photo_block p ++ text ++ media_block p)
         (parse_post_text p (init ++ [a]))
  /\ Py.count "[" author = 0 /\ Py.count "]" author = 0
  /\ (forall (data : export) (args : arguments),
         Py.getitem (make_alias data args) (-1)
         = Ok (if String.eqb (args_alias args) "" then data_id data
               else IdStr (args_alias args))).
Proof.
  intros author link header.
  destruct (unlinked_name_spec (post_from p)) as (Ea & Hl & Hr).
  fold author in Ea. rewrite Ea in Hl, Hr.
  split; [|split; [exact Hl | split; [exact Hr|]]].
  - rewrite parse_post_blocks. unfold header_block. rewrite Ea.
    subst header link. now destruct (post_reply_to_message_id p).
  - intros data args. destruct (make_alias_last data args) as [i ->].
    now rewrite getitem_snoc.
Qed.

(** C8, as amended. For a post with a [file] field: when the value begins
    with the placeholder [(File ] the rendered post is that of the post
    without the field; otherwise it is that of the post without the field
    followed by one newline character and the embedded reference to the
    last path segment of the value. *)
Theorem parse_post_file_handling (p : post) (photo_dir media_dir : string)
    (alias : list ident) (file : string) :
  (Py.startswith "(File " file = true ->
   parse_post (set_file p (Some file)) photo_dir media_dir alias
   = parse_post (set_file p None) photo_dir media_dir alias)
  /\ (Py.startswith "(File " file = false ->
      parse_post (set_file p (Some file)) photo_dir media_dir alias
      = fmap (fun base => base ++ NL ++ "![[" ++ last_segment file ++ "]]")
             (parse_post (set_file p None) photo_dir media_dir alias)).
Proof.
  destruct alias as [|x l] using rev_ind.
  - rewrite !parse_post_no_alias. split; reflexivity.
  - rewrite !parse_post_blocks.
    unfold header_block, photo_block, media_block, parse_post_text. simpl.
    split; intros ->;
      destruct (match post_text p with
                | TextStr s => Ok s
                | TextSeq items => parse_items items (l ++ [x]) ""
                end) as [text|e]; cbn [fmap bind];
      rewrite ?append_assoc, ?append_nil_r; reflexivity.
Qed.

(** C8 as stated fails: after a text that does not end with a newline, the
    line before the file reference is the last line of the text, not a
    blank line. *)
Lemma file_reference_no_blank_line :
  parse_post file_post "photos" "files" [IdStr "c"]
  = Ok ("**Alice [wrote](https://t.me/c/1):**" ++ NL
        ++ "Hello" ++ NL ++ "![[a.pdf]]")
  /\ fmap (Py.split Py.LF) (parse_post file_post "photos" "files" [IdStr "c"])
     = Ok ["**Alice [wrote](https://t.me/c/1):**"; "Hello"; "![[a.pdf]]"]
  /\ fmap (Py.endswith (NL ++ NL ++ "![[a.pdf]]"))
          (parse_post file_post "photos" "files" [IdStr "c"])
     = Ok false.
Proof. repeat split. Qed.

(** ** Export Walker *)

Lemma zfill_cons (s rest : string) :
  exists c t, Py.zfill 4 s ++ rest = String c t.
Proof.
  unfold Py.zfill. destruct s as [|c s]; [now eexists; eexists|].
  destruct (4 - String.length (String c s))%nat; simpl; now eexists; eexists.
Qed.

(** A bucket label is never the empty string [lastmonth] starts from. *)
Lemma post_subpath_nonempty (p : post) : post_subpath p <> "".
Proof.
  unfold post_subpath, str_datetime.
  match goal with
  | |- substring 0 7 (Py.zfill 4 ?s ++ ?rest) <> _ =>
      destruct (zfill_cons s rest) as (c & t & ->)
  end.
  discriminate.
Qed.

Lemma process_post_stdout (args : arguments) (data : export)
    (alias : list ident) (p : post) (lastmonth : string) (w w' : world)
    (lastmonth' : string) (e : option exn) :
  process_post args data alias p lastmonth w = (w', lastmonth', e) ->
  lastmonth' = post_subpath p
  /\ stdout w' = (stdout w ++ if String.eqb (post_subpath p) lastmonth then []
                              else [post_subpath p])%list.
Proof.
  unfold process_post.
  assert (Hm : forall d v, stdout (mkdir d v) = stdout v).
  { intros d v. unfold mkdir. now destruct (existsb _ _). }
  destruct (String.eqb_spec (post_subpath p) lastmonth) as [E|E]; cbn [negb];
    destruct (parse_post p _ _ alias); intros H; injection H as <- <- <-;
    cbn [stdout write_file print]; rewrite Hm.
  1,2: split; [now rewrite E | now rewrite app_nil_r].
  all: split; reflexivity.
Qed.

(** What a run that ends normally has printed after the first line. *)
Lemma walk_stdout (args : arguments) (data : export) (alias : list ident)
    (raw_posts : list post) :
  forall (prev : option string) (w w' : world),
    walk args data alias raw_posts
         (match prev with Some q => q | None => "" end) w = (w', None) ->
    stdout w'
    = (stdout w
       ++ entered_buckets prev (map post_subpath (filter is_message raw_posts)))%list.
Proof.
  induction raw_posts as [|p rest IH]; intros prev w w' H.
  - simpl in *. injection H as <-. now rewrite app_nil_r.
  - simpl in H. unfold is_message at 1. simpl filter. fold (is_message p).
    unfold is_message at 1.
    destruct (String.eqb (post_type p) "message"); [|now apply IH].
    destruct (process_post args data alias p _ w) as [[w1 lm] [e|]] eqn:Hp;
      [discriminate H|].
    apply process_post_stdout in Hp. destruct Hp as [-> Hs].
    apply (IH (Some (post_subpath p))) in H. rewrite H, Hs.
    rewrite <- app_assoc. f_equal. simpl.
    destruct prev as [q|].
    + now destruct (String.eqb (post_subpath p) q).
    + pose proof (post_subpath_nonempty p) as Hn.
      apply String.eqb_neq in Hn. now rewrite Hn.
Qed.

(** C6, as amended. A run that ends normally has printed, first and once,
    the number of entries of the [messages] sequence, whatever their
    types, with the canonical alias; then one year-month label each time a
    post of type [message] falls in another bucket than the one before it
    (the first always), in the order of the export. With two such posts
    in different months, the two labels are printed once each, in that
    order. *)
Theorem main_progress (data : export) (args : arguments) (w : world) :
  main data args = (w, None) ->
  stdout w
  = processing_line (Py.len (data_messages data)) (canonical_alias data args)
    :: entered_buckets None (message_buckets data)
  /\ (forall p q : post,
         filter is_message (data_messages data) = [p; q] ->
         post_subpath p <> post_subpath q ->
         stdout w
         = [processing_line (Py.len (data_messages data))
                            (canonical_alias data args);
            post_subpath p; post_subpath q]).
Proof.
  intros H.
  assert (E : stdout w
              = processing_line (Py.len (data_messages data))
                                (canonical_alias data args)
                :: entered_buckets None (message_buckets data)).
  { unfold main in H. destruct (make_alias_last data args) as [init Ha].
    rewrite Ha, getitem_snoc in H.
    apply (walk_stdout _ _ _ _ None) in H. rewrite H.
    unfold mkdir. now destruct (existsb _ _). }
  split; [exact E|].
  intros p q Hf Hne. rewrite E. unfold message_buckets. rewrite Hf. simpl.
  apply not_eq_sym, String.eqb_neq in Hne. now rewrite Hne.
Qed.

(** Every label is the bucket of a processed post. *)
Lemma entered_buckets_incl (prev : option string) (buckets : list string)
    (m : string) :
  In m (entered_buckets prev buckets) -> In m buckets.
Proof.
  revert prev. induction buckets as [|b rest IH]; intros prev; simpl; [tauto|].
  destruct (match prev with Some q => String.eqb b q | None => false end).
  - intros H. right. now apply (IH (Some b)).
  - intros [H|H]; [now left | right; now apply (IH (Some b))].
Qed.

Lemma entered_buckets_changes (prev : option string) (buckets : list string) :
  changes prev (entered_buckets prev buckets).
Proof.
  revert prev. induction buckets as [|b rest IH]; intros prev; simpl; [exact I|].
  destruct prev as [q|].
  - destruct (String.eqb_spec b q) as [->|Hne].
    + apply IH.
    + simpl. split; [congruence | apply IH].
  - simpl. split; [discriminate | apply IH].
Qed.

(** A month entered again after another one is reported again. *)
Example entered_buckets_again :
  entered_buckets None ["2021-03"; "2021-03"; "2021-04"; "2021-03"]
  = ["2021-03"; "2021-04"; "2021-03"].
Proof. reflexivity. Qed.

Lemma main_progress_witness :
  main sample_export sample_arguments
  = (fst (main sample_export sample_arguments), None)
  /\ stdout (fst (main sample_export sample_arguments))
     = ["Processing 3 posts in mychannel"; "2021-04"; "2021-03"].
Proof.
  split; [reflexivity|].
  exact (proj1 (main_progress sample_export sample_arguments
                  (fst (main sample_export sample_arguments)) eq_refl)).
Defined.

(** C6 as stated fails: the count printed at the start is that of all the
    entries of [messages], here 3, not that of the posts of type
    [message], here 2. *)
Lemma main_counts_every_entry :
  snd (main sample_export sample_arguments) = None
  /\ Py.len (filter is_message (data_messages sample_export)) = 2
  /\ hd_error (stdout (fst (main sample_export sample_arguments)))
     = Some "Processing 3 posts in mychannel"
  /\ hd_error (stdout (fst (main sample_export sample_arguments)))
     <> Some (processing_line
                (Py.len (filter is_message (data_messages sample_export)))
                (canonical_alias sample_export sample_arguments)).
Proof. repeat split. discriminate. Qed.

(** * Further properties of the program *)

(** ** Names *)

Lemma filter_all_printable (s : string) :
  all_printable (Py.filter Py.isprintable s) = true.
Proof.
  induction s as [|c s IH]; simpl; [reflexivity|].
  destruct (Py.isprintable c) eqn:E; simpl; [now rewrite E | exact IH].
Qed.

Lemma filter_printable_id (s : string) :
  all_printable s = true -> Py.filter Py.isprintable s = s.
Proof.
  induction s as [|c s IH]; simpl; [reflexivity|].
  intros H. apply andb_prop in H. destruct H as [Hc Hs].
  now rewrite Hc, (IH Hs).
Qed.

(** X1. [simplify_name] returns a name of printable characters only; it
    leaves a name as it is exactly when all its characters are printable,
    so applying it again changes nothing. *)
Theorem simplify_name_printable (name : string) :
  all_printable (simplify_name name) = true
  /\ (simplify_name name = name <-> all_printable name = true)
  /\ simplify_name (simplify_name name) = simplify_name name.
Proof.
  unfold simplify_name. split; [apply filter_all_printable|]. split.
  - split; [intros <-; apply filter_all_printable | apply filter_printable_id].
  - apply filter_printable_id, filter_all_printable.
Qed.

Lemma remove_absent (c : ascii) (s : string) :
  Py.count c s = 0 -> Py.remove c s = s.
Proof.
  induction s as [|d s IH]; simpl; [reflexivity|].
  pose proof (count_nonneg c s) as Hn.
  destruct (Ascii.eqb d c); [lia|]. intros H. now rewrite IH by lia.
Qed.

(** X2. [unlinked_name] applied to its own result returns it unchanged:
    the second call [main] makes on the author changes nothing. *)
Theorem unlinked_name_idempotent (name : option string) :
  unlinked_name (Some (unlinked_name name)) = unlinked_name name.
Proof.
  destruct (unlinked_name_spec name) as (_ & Hl & Hr).
  destruct (unlinked_name_spec (Some (unlinked_name name))) as (E & _ & _).
  now rewrite E, (remove_absent "[" _ Hl), (remove_absent "]" _ Hr).
Qed.

Lemma replace_count (c d : ascii) (s : string) :
  c <> d -> Py.count c (Py.replace c d s) = 0.
Proof.
  intros Hcd. induction s as [|e s IH]; simpl; [reflexivity|].
  rewrite IH. destruct (Ascii.eqb_spec e c) as [->|Hec].
  - apply not_eq_sym, Ascii.eqb_neq in Hcd. now rewrite Hcd.
  - apply Ascii.eqb_neq in Hec. now rewrite Hec.
Qed.

Lemma replace_all_printable (c d : ascii) (s : string) :
  Py.isprintable d = true ->
  all_printable s = true -> all_printable (Py.replace c d s) = true.
Proof.
  intros Hd. induction s as [|e s IH]; simpl; [reflexivity|].
  intros H. apply andb_prop in H. destruct H as [He Hs].
  rewrite (IH Hs). now destruct (Ascii.eqb e c); [rewrite Hd | rewrite He].
Qed.

Lemma all_printable_count (c : ascii) (s : string) :
  Py.isprintable c = false -> all_printable s = true -> Py.count c s = 0.
Proof.
  intros Hc. induction s as [|e s IH]; simpl; [reflexivity|].
  intros H. apply andb_prop in H. destruct H as [He Hs].
  rewrite (IH Hs). destruct (Ascii.eqb_spec e c) as [->|_]; [congruence | reflexivity].
Qed.

(** X3. The tag written in the front matter is empty when the export's
    type mentions [channel]; in any case it holds no blank, no newline and
    only printable characters. *)
Theorem nametag_clean (data : export) (p : post) :
  (Py.contains "channel" (data_type data) = true -> nametag data p = "")
  /\ Py.count " " (nametag data p) = 0
  /\ Py.count Py.LF (nametag data p) = 0
  /\ all_printable (nametag data p) = true.
Proof.
  assert (Hp : all_printable (nametag data p) = true).
  { unfold nametag. destruct (Py.contains _ _); [reflexivity|].
    apply replace_all_printable; [reflexivity | apply filter_all_printable]. }
  split; [unfold nametag; now intros ->|].
  split; [|split; [now apply all_printable_count | exact Hp]].
  unfold nametag. destruct (Py.contains _ _); [reflexivity|].
  now apply replace_count.
Qed.

(** ** Paths *)

Lemma join_cons (sep : ascii) (x : string) (l : list string) :
  l <> [] -> join sep (x :: l) = x ++ String sep (join sep l).
Proof. destruct l; [congruence | reflexivity]. Qed.

Lemma join_snoc (sep : ascii) (l : list string) (x : string) :
  join sep (l ++ [x]) = dir_prefix sep l ++ x.
Proof.
  induction l as [|y l IH]; [reflexivity|].
  change ((y :: l) ++ [x])%list with (y :: (l ++ [x]))%list.
  rewrite join_cons by (destruct l; discriminate).
  simpl dir_prefix. now rewrite IH, append_assoc.
Qed.

Lemma dir_prefix_ends (sep : ascii) (l : list string) :
  dir_prefix sep l = "" \/ exists d, dir_prefix sep l = d ++ String sep "".
Proof.
  induction l as [|y l [E|[d E]]]; simpl; [now left | right | right].
  - exists y. now rewrite E.
  - exists (y ++ String sep d). now rewrite E, append_assoc.
Qed.

(** A path is its last segment after a prefix that is empty or ends with
    the separator. *)
Lemma last_segment_suffix (s : string) :
  exists dir, s = dir ++ last_segment s
              /\ (dir = "" \/ exists d, dir = d ++ "/").
Proof.
  pose proof (split_nonempty "/" s) as Hn.
  destruct (exists_last Hn) as (l & x & E).
  exists (dir_prefix "/" l). split; [|apply dir_prefix_ends].
  unfold last_segment. rewrite E, rev_app_distr. simpl.
  now rewrite <- join_snoc, <- E, join_split.
Qed.

(** X4. [parse_post_photo] raises [KeyError] for a post without a [photo]
    key and never fails otherwise: it returns the image reference to the
    last segment of the path, which holds no slash and is what follows the
    last slash of the path (the whole path when it has none). *)
Theorem parse_post_photo_reference (p : post) (photo_dir : string) :
  parse_post_photo p photo_dir
  = match post_photo p with
    | None => Raise (KeyError "photo")
    | Some photo => Ok ("![image](" ++ last_segment photo ++ ")" ++ NL ++ NL)
    end
  /\ (forall photo : string,
         Py.count "/" (last_segment photo) = 0
         /\ exists dir : string,
             photo = dir ++ last_segment photo
             /\ (dir = "" \/ exists d, dir = d ++ "/")).
Proof.
  split.
  - unfold parse_post_photo, lookup. destruct (post_photo p) as [photo|]; [|reflexivity].
    cbn [bind]. now rewrite getitem_split_last.
  - intros photo. split; [apply last_segment_no_slash | apply last_segment_suffix].
Qed.

(** ** Runs of type link *)

Lemma link_run_internal (obj : text_object) (alias : list ident) :
  obj_type obj = "link" ->
  self_referential (obj_text obj) alias ->
  parse_text_object obj alias
  = Ok (Some ("[[" ++ last_segment (obj_text obj) ++ "]]")).
Proof.
  intros Hty (Hp & Hn & Hin). unfold parse_text_object. rewrite Hty.
  cbn [String.eqb Ascii.eqb Bool.eqb]. rewrite Hp.
  replace (2 <? Py.len (Py.split "/" (obj_text obj))) with true
    by (symmetry; apply Z.ltb_lt; unfold Py.len; lia).
  cbn [andb]. rewrite (getitem_neg2 _ "") by lia. cbn [bind].
  fold (second_to_last_segment (obj_text obj)).
  now rewrite (proj2 (in_alias_iff _ _) Hin), getitem_split_last.
Qed.

Lemma link_run_external (obj : text_object) (alias : list ident) :
  obj_type obj = "link" ->
  ~ self_referential (obj_text obj) alias ->
  parse_text_object obj alias = Ok (Some (obj_text obj)).
Proof.
  intros Hty Hno. unfold parse_text_object. rewrite Hty.
  cbn [String.eqb Ascii.eqb Bool.eqb].
  destruct (Py.startswith "https://t.me" (obj_text obj)) eqn:Hp; [|reflexivity].
  destruct (2 <? Py.len (Py.split "/" (obj_text obj))) eqn:Hn; [|reflexivity].
  apply Z.ltb_lt in Hn. unfold Py.len in Hn.
  cbn [andb]. rewrite (getitem_neg2 _ "") by lia. cbn [bind].
  fold (second_to_last_segment (obj_text obj)).
  destruct (in_alias _ alias) eqn:Hin; [|reflexivity].
  exfalso. apply Hno. repeat split; [exact Hp | lia | now apply in_alias_iff].
Qed.

(** X5. A run of type [link] whose text is a self-referential link becomes
    the bare wiki reference to its last segment; any other text is
    returned as it is, neither stripped nor given a display text. *)
Theorem link_run_rewritten (obj : text_object) (alias : list ident) :
  obj_type obj = "link" ->
  (self_referential (obj_text obj) alias ->
   parse_text_object obj alias
   = Ok (Some ("[[" ++ last_segment (obj_text obj) ++ "]]")))
  /\ (~ self_referential (obj_text obj) alias ->
      parse_text_object obj alias = Ok (Some (obj_text obj))).
Proof.
  intros Hty. split; [now apply link_run_internal | now apply link_run_external].
Qed.

Lemma link_run_rewritten_witness :
  parse_text_object link_run [IdInt 7; IdStr "mychannel"] = Ok (Some "[[42]]").
Proof.
  apply (proj1 (link_run_rewritten link_run [IdInt 7; IdStr "mychannel"] eq_refl)).
  repeat split; [simpl; lia | simpl; tauto].
Defined.

(** X6. The test on the number of segments never decides: a link is
    self-referential as soon as it starts with the channel's web prefix
    and its second-to-last segment is an alias. *)
Theorem self_referential_without_length (href : string) (alias : list ident) :
  self_referential href alias
  <-> Py.startswith "https://t.me" href = true
      /\ In (IdStr (second_to_last_segment href)) alias.
Proof.
  unfold self_referential. split.
  - intros (Hp & _ & Hin). now split.
  - intros (Hp & Hin). repeat split; [exact Hp | now apply prefix_gives_segments | exact Hin].
Qed.

Lemma numeric_alias_external (alias : list ident) (href : string) :
  (forall s : string, ~ In (IdStr s) alias) -> ~ self_referential href alias.
Proof. intros Hno (_ & _ & Hin). exact (Hno _ Hin). Qed.

(** X7. When no alias is given on the command line and the export's id is
    a number, no link is self-referential: every text link is written as
    an external link, and every run of type link is left as it is. *)
Theorem no_alias_no_wiki_link (data : export) (args : arguments) (n : Z) :
  args_alias args = "" ->
  data_id data = IdInt n ->
  (forall text href : string,
      text_link_format text href (make_alias data args)
      = Ok ("[" ++ Py.strip text ++ "](" ++ href ++ ")" ++ link_trailer text))
  /\ (forall obj : text_object,
         obj_type obj = "link" ->
         parse_text_object obj (make_alias data args) = Ok (Some (obj_text obj))).
Proof.
  intros Ha Hid.
  assert (Hno : forall s : string, ~ In (IdStr s) (make_alias data args)).
  { unfold make_alias. rewrite Ha, Hid. simpl. intros s [H|[]]. discriminate H. }
  split.
  - intros text href. apply text_link_format_external.
    now apply numeric_alias_external.
  - intros obj Hty. apply link_run_external; [exact Hty|].
    now apply numeric_alias_external.
Qed.

Lemma no_alias_no_wiki_link_witness :
  text_link_format "post" "https://t.me/1234567/42"
                   (make_alias numeric_export default_arguments)
  = Ok "[post](https://t.me/1234567/42)".
Proof.
  exact (proj1 (no_alias_no_wiki_link numeric_export default_arguments 1234567
                  eq_refl eq_refl) "post" "https://t.me/1234567/42").
Defined.

(** ** Exceptions of the text assembler *)

Lemma text_link_format_ok (text href : string) (alias : list ident) :
  exists out : string, text_link_format text href alias = Ok out.
Proof.
  destruct (self_referential_dec href alias) as [H|H].
  - eexists. now apply text_link_format_internal.
  - eexists. now apply text_link_format_external.
Qed.

Lemma parse_text_object_ok (obj : text_object) (alias : list ident) :
  (obj_type obj = "text_link" -> obj_href obj <> None) ->
  exists r : option string, parse_text_object obj alias = Ok r.
Proof.
  intros Hh.
  destruct (String.eqb_spec (obj_type obj) "link") as [Hl|Hl].
  - destruct (self_referential_dec (obj_text obj) alias) as [H|H]; eexists;
      [now apply link_run_internal | now apply link_run_external].
  - unfold parse_text_object.
    destruct (String.eqb (obj_type obj) "hashtag"); [now eexists|].
    destruct (String.eqb_spec (obj_type obj) "text_link") as [Ht|_].
    + destruct (obj_href obj) as [href|]; [|now destruct (Hh Ht)].
      cbn [lookup bind].
      destruct (text_link_format_ok (obj_text obj) href alias) as [out ->].
      now eexists.
    + apply String.eqb_neq in Hl. rewrite Hl.
      repeat match goal with
             | |- context [if ?b then _ else _] => destruct b; [now eexists|]
             end.
      now eexists.
Qed.

Lemma parse_text_object_href (obj : text_object) (alias : list ident) :
  obj_type obj = "text_link" ->
  obj_href obj = None ->
  parse_text_object obj alias = Raise (KeyError "href").
Proof.
  intros Ht Hh. unfold parse_text_object. now rewrite Ht, Hh.
Qed.

Lemma parse_text_object_raise_inv (obj : text_object) (alias : list ident)
    (e : exn) :
  parse_text_object obj alias = Raise e ->
  obj_type obj = "text_link" /\ obj_href obj = None /\ e = KeyError "href".
Proof.
  intros H.
  destruct (String.eqb_spec (obj_type obj) "text_link") as [Ht|Ht].
  - destruct (obj_href obj) as [href|] eqn:Hh.
    + destruct (parse_text_object_ok obj alias) as [r Hr];
        [rewrite Hh; discriminate | congruence].
    + rewrite (parse_text_object_href obj alias Ht Hh) in H.
      injection H as <-. now repeat split.
  - destruct (parse_text_object_ok obj alias) as [r Hr];
      [intros Ht'; contradiction | congruence].
Qed.

(** X8. [parse_text_object] fails for one kind of run only, a text_link
    without an [href] key, and then with [KeyError] on that key; the
    indexing of the segments of a link never goes out of range. *)
Theorem parse_text_object_raises (obj : text_object) (alias : list ident)
    (e : exn) :
  parse_text_object obj alias = Raise e
  <-> obj_type obj = "text_link" /\ obj_href obj = None /\ e = KeyError "href".
Proof.
  split; [apply parse_text_object_raise_inv|].
  intros (Ht & Hh & ->). now apply parse_text_object_href.
Qed.

Lemma parse_items_raise (items : list text_item) (alias : list ident) :
  forall (acc : string) (e : exn),
    parse_items items alias acc = Raise e ->
    e = KeyError "href" /\ href_missing items.
Proof.
  induction items as [|[s|obj] rest IH]; intros acc e H; simpl in H.
  - discriminate H.
  - destruct (IH _ _ H) as (He & obj & Hin & Ht & Hh).
    split; [exact He|]. exists obj. now repeat split; [right|..].
  - destruct (parse_text_object obj alias) as [r|e'] eqn:Ho; cbn [bind] in H.
    + destruct (IH _ _ H) as (He & obj' & Hin & Ht & Hh).
      split; [exact He|]. exists obj'. now repeat split; [right|..].
    + injection H as <-. apply parse_text_object_raise_inv in Ho.
      destruct Ho as (Ht & Hh & ->).
      split; [reflexivity|]. exists obj. now repeat split; [left|..].
Qed.

Lemma parse_items_ok (items : list text_item) (alias : list ident) :
  ~ href_missing items ->
  forall acc : string, exists out : string, parse_items items alias acc = Ok out.
Proof.
  induction items as [|[s|obj] rest IH]; intros Hno acc; simpl.
  - now eexists.
  - apply IH. intros (obj & Hin & Ht & Hh). apply Hno.
    exists obj. now repeat split; [right|..].
  - destruct (parse_text_object_ok obj alias) as [r ->].
    + intros Ht Hh. apply Hno. exists obj. now repeat split; [left|..].
    + cbn [bind]. apply IH. intros (obj' & Hin & Ht & Hh). apply Hno.
      exists obj'. now repeat split; [right|..].
Qed.


(** ** The assembler and concatenation *)

Lemma parse_items_acc (items : list text_item) (alias : list ident) :
  forall acc : string,
    parse_items items alias acc
    = fmap (append acc) (parse_items items alias "").
Proof.
  induction items as [|[s|obj] rest IH]; intros acc; simpl.
  - now rewrite append_nil_r.
  - rewrite (IH (acc ++ s)), (IH s).
    destruct (parse_items rest alias ""); cbn [fmap bind];
      [now rewrite append_assoc | reflexivity].
  - destruct (parse_text_object obj alias) as [r|e]; cbn [bind fmap]; [|reflexivity].
    rewrite (IH (acc ++ Py.str_opt r)), (IH (Py.str_opt r)).
    destruct (parse_items rest alias ""); cbn [fmap bind];
      [now rewrite append_assoc | reflexivity].
Qed.

Lemma parse_items_app (l1 l2 : list text_item) (alias : list ident) :
  forall acc : string,
    parse_items (l1 ++ l2) alias acc
    = (a <- parse_items l1 alias acc;; parse_items l2 alias a).
Proof.
  induction l1 as [|[s|obj] rest IH]; intros acc; simpl; [reflexivity | apply IH |].
  destruct (parse_text_object obj alias) as [r|e]; cbn [bind]; [apply IH | reflexivity].
Qed.

(** X10. The assembler works item by item: the text of two sequences put
    end to end is the text of the first followed by the text of the
    second, and it fails as soon as one of them does, the first one
    first. *)
Theorem parse_post_text_app (p : post) (alias : list ident)
    (l1 l2 : list text_item) :
  parse_post_text (set_text p (TextSeq (l1 ++ l2))) alias
  = (a <- parse_post_text (set_text p (TextSeq l1)) alias;;
     b <- parse_post_text (set_text p (TextSeq l2)) alias;;
     Ok (a ++ b)).
Proof.
  unfold parse_post_text. simpl. rewrite parse_items_app.
  destruct (parse_items l1 alias "") as [a|e]; cbn [bind]; [|reflexivity].
  now rewrite parse_items_acc.
Qed.

(** X11. A sequence of plain strings only is assembled into their
    concatenation, with nothing between them: the same text as the post
    whose [text] is that concatenation as one string. *)
Theorem parse_post_text_strings (p : post) (alias : list ident)
    (strings : list string) :
  parse_post_text (set_text p (TextSeq (map ItemStr strings))) alias
  = Ok (String.concat "" strings)
  /\ parse_post_text (set_text p (TextSeq (map ItemStr strings))) alias
     = parse_post_text (set_text p (TextStr (String.concat "" strings))) alias.
Proof.
  assert (E : forall acc, parse_items (map ItemStr strings) alias acc
                          = Ok (acc ++ String.concat "" strings)).
  { induction strings as [|s rest IH]; intros acc; simpl.
    - now rewrite append_nil_r.
    - rewrite IH, append_assoc. do 2 f_equal.
      destruct rest; [now rewrite append_nil_r | reflexivity]. }
  unfold parse_post_text. simpl. now rewrite E.
Qed.

(** ** Exceptions of the post renderer *)

(** X12. [parse_post] raises [IndexError] exactly when the alias set is
    empty, whatever the post; with an alias it fails only when the text
    assembler does, with the same exception. *)
Theorem parse_post_raises (p : post) (photo_dir media_dir : string)
    (alias : list ident) :
  (parse_post p photo_dir media_dir alias = Raise IndexError <-> alias = [])
  /\ (forall e : exn,
         alias <> [] ->
         (parse_post p photo_dir media_dir alias = Raise e
          <-> parse_post_text p alias = Raise e)).
Proof.
  assert (Hne : forall e, alias <> [] ->
                 (parse_post p photo_dir media_dir alias = Raise e
                  <-> parse_post_text p alias = Raise e)).
  { intros e Ha. destruct (exists_last Ha) as (init & a & ->).
    rewrite parse_post_blocks.
    destruct (parse_post_text p (init ++ [a])); cbn [fmap bind];
      split; intros H; (discriminate H || exact H). }
  split; [|exact Hne]. split.
  - intros H. destruct alias as [|x l]; [reflexivity|]. exfalso.
    apply Hne in H; [|discriminate].
    unfold parse_post_text in H.
    destruct (post_text p) as [s|items]; [discriminate H|].
    apply parse_items_raise in H. destruct H as [H _]. discriminate H.
  - intros ->. apply parse_post_no_alias.
Qed.

(** ** The walk, post by post *)

Lemma process_post_eq (args : arguments) (data : export) (alias : list ident)
    (p : post) (prev : option string) (w : world) :
  process_post args data alias p (match prev with Some q => q | None => "" end) w
  = ({| stdout := stdout w ++ entered_buckets prev [post_subpath p];
        dirs := add_dir (dirs w) (bucket_dir args p);
        files := files w ++ [(post_path args p, file_content data args alias p)] |},
     post_subpath p,
     match render args alias p with
     | Ok _ => None
     | Raise e => Some e
     end).
Proof.
  unfold process_post, file_content, front_matter, nametag, render, post_path,
    bucket_dir, add_dir, mkdir.
  assert (Hs : (match prev with
                | Some q => String.eqb (post_subpath p) q
                | None => false
                end)
               = String.eqb (post_subpath p)
                   (match prev with Some q => q | None => "" end)).
  { destruct prev as [q|]; [reflexivity|].
    symmetry. apply String.eqb_neq, post_subpath_nonempty. }
  cbn [entered_buckets]. rewrite Hs.
  destruct w as [out ds fs]. cbn [stdout dirs files].
  destruct (String.eqb_spec (post_subpath p)
              (match prev with Some q => q | None => "" end)) as [E|E];
    cbn [negb]; destruct (existsb _ ds);
    destruct (parse_post p _ _ alias) as [body|e];
    cbn [print write_file stdout dirs files];
    rewrite ?app_nil_r, ?append_nil_r; try rewrite <- E; reflexivity.
Qed.

Lemma entered_buckets_cons (prev : option string) (m : string)
    (rest : list string) :
  entered_buckets prev (m :: rest)
  = (entered_buckets prev [m] ++ entered_buckets (Some m) rest)%list.
Proof.
  simpl. now destruct (match prev with Some q => String.eqb m q | None => false end).
Qed.

(** The walk, told by the posts it opens a file for. *)
Lemma walk_eq (args : arguments) (data : export) (alias : list ident)
    (posts : list post) :
  forall (prev : option string) (w : world),
    walk args data alias posts (match prev with Some q => q | None => "" end) w
    = ({| stdout := stdout w
                    ++ entered_buckets prev
                         (map post_subpath (attempted args alias posts));
          dirs := fold_left add_dir
                    (map (bucket_dir args) (attempted args alias posts)) (dirs w);
          files := files w
                   ++ map (fun p => (post_path args p,
                                     file_content data args alias p))
                          (attempted args alias posts) |},
       failure args alias posts).
Proof.
  induction posts as [|p rest IH]; intros prev w.
  - destruct w. simpl. now rewrite !app_nil_r.
  - cbn [walk attempted failure]. unfold is_message.
    destruct (String.eqb (post_type p) "message"); [|apply IH].
    rewrite process_post_eq.
    destruct (render args alias p) as [body|e].
    + rewrite (IH (Some (post_subpath p))). cbn [stdout dirs files map fold_left].
      rewrite (entered_buckets_cons prev (post_subpath p)
                 (map post_subpath (attempted args alias rest))).
      now rewrite <- !app_assoc.
    + reflexivity.
Qed.

(** [main], told the same way. *)
Lemma main_eq (data : export) (args : arguments) :
  main data args
  = (let alias := make_alias data args in
     let opened := attempted args alias (data_messages data) in
     {| stdout := processing_line (Py.len (data_messages data))
                                  (canonical_alias data args)
                  :: entered_buckets None (map post_subpath opened);
        dirs := fold_left add_dir (map (bucket_dir args) opened)
                          [args_out_dir args];
        files := map (fun p => (post_path args p,
                                file_content data args alias p)) opened |},
     failure args (make_alias data args) (data_messages data)).
Proof.
  unfold main. destruct (make_alias_last data args) as [init Ha].
  rewrite Ha at 1. rewrite getitem_snoc.
  now rewrite (walk_eq args data (make_alias data args) _ None).
Qed.

Lemma attempted_all (args : arguments) (alias : list ident) (posts : list post) :
  failure args alias posts = None ->
  attempted args alias posts = filter is_message posts
  /\ Forall (fun p => exists body, render args alias p = Ok body)
            (filter is_message posts).
Proof.
  induction posts as [|p rest IH]; simpl; [now split|].
  destruct (is_message p); [|exact IH].
  destruct (render args alias p) as [body|e] eqn:E; [|discriminate].
  intros H. destruct (IH H) as [-> HF].
  split; [reflexivity | constructor; [now exists body | exact HF]].
Qed.

Lemma attempted_prefix (args : arguments) (alias : list ident)
    (posts : list post) :
  exists k : nat, attempted args alias posts = firstn k (filter is_message posts).
Proof.
  induction posts as [|p rest [k IH]]; simpl; [now exists O|].
  destruct (is_message p); [|now exists k].
  destruct (render args alias p); [exists (S k); simpl; now rewrite IH | now exists 1%nat].
Qed.

Lemma attempted_filter (args : arguments) (alias : list ident)
    (posts : list post) :
  attempted args alias (filter is_message posts) = attempted args alias posts
  /\ failure args alias (filter is_message posts) = failure args alias posts.
Proof.
  induction posts as [|p rest [IHa IHf]]; simpl; [now split|].
  destruct (is_message p) eqn:E; [|now split].
  simpl. rewrite E, IHa, IHf. now split.
Qed.

Lemma render_raise (args : arguments) (data : export) (p : post) (e : exn) :
  render args (make_alias data args) p = Raise e ->
  e = KeyError "href"
  /\ exists items, post_text p = TextSeq items /\ href_missing items.
Proof.
  unfold render. destruct (make_alias_last data args) as [init ->].
  rewrite parse_post_blocks. unfold parse_post_text.
  destruct (post_text p) as [s|items]; [discriminate|].
  destruct (parse_items items _ "") as [out|e'] eqn:E; [discriminate|].
  cbn [fmap bind]. intros H. injection H as <-.
  apply parse_items_raise in E. destruct E as [-> Hm].
  split; [reflexivity | now exists items].
Qed.

Lemma failure_inv (args : arguments) (data : export) (posts : list post)
    (e : exn) :
  failure args (make_alias data args) posts = Some e ->
  e = KeyError "href"
  /\ exists p items, In p posts /\ post_type p = "message"
                     /\ post_text p = TextSeq items /\ href_missing items.
Proof.
  induction posts as [|p rest IH]; simpl; [discriminate|].
  unfold is_message.
  destruct (String.eqb_spec (post_type p) "message") as [Hm|_].
  - destruct (render args (make_alias data args) p) as [body|e'] eqn:E.
    + intros H. destruct (IH H) as (He & q & items & Hin & Hq).
      split; [exact He|]. exists q, items. split; [now right | exact Hq].
    + intros H. injection H as ->. apply render_raise in E.
      destruct E as (He & items & Ht & Hmiss).
      split; [exact He|]. exists p, items. now repeat split; [left|..].
  - intros H. destruct (IH H) as (He & q & items & Hin & Hq).
    split; [exact He|]. exists q, items. split; [now right | exact Hq].
Qed.

(** ** What a run leaves behind *)

(** X13. A run of [main] ends normally or with [KeyError] on [href], the
    latter only when a post of type [message] holds a text_link run
    without that key; when no such post is in the export the run ends
    normally. *)
Theorem main_raises (data : export) (args : arguments) :
  (forall e : exn,
      snd (main data args) = Some e ->
      e = KeyError "href"
      /\ exists (p : post) (items : list text_item),
          In p (data_messages data) /\ post_type p = "message"
          /\ post_text p = TextSeq items /\ href_missing items)
  /\ ((forall (p : post) (items : list text_item),
          In p (data_messages data) -> post_type p = "message" ->
          post_text p = TextSeq items -> ~ href_missing items) ->
      snd (main data args) = None).
Proof.
  rewrite main_eq. cbn [snd]. split.
  - intros e. apply failure_inv.
  - intros Hok.
    destruct (failure args (make_alias data args) (data_messages data))
      as [e|] eqn:E; [|reflexivity].
    apply failure_inv in E. destruct E as (_ & p & items & Hin & Hm & Ht & Hmiss).
    now destruct (Hok p items Hin Hm Ht).
Qed.

(** X14. A run that ends normally has written one file for each post of
    type [message], in the order of the export and none for any other
    entry: the file of the post, holding the front matter, an empty line,
    the rendered body and a newline. *)
Theorem main_writes_messages (data : export) (args : arguments) (w : world) :
  main data args = (w, None) ->
  map fst (files w)
  = map (post_path args) (filter is_message (data_messages data))
  /\ Forall2 (fun (p : post) (file : string * string) =>
                exists body : string,
                  parse_post p (args_photo_dir args) (args_media_dir args)
                             (make_alias data args) = Ok body
                  /\ file = (post_path args p,
                             front_matter data p ++ NL ++ body ++ NL))
             (filter is_message (data_messages data)) (files w).
Proof.
  rewrite main_eq. cbv zeta. intros H. injection H as <- Hf.
  destruct (attempted_all _ _ _ Hf) as [-> HF]. cbn [files].
  split; [now rewrite map_map|].
  induction HF as [|p l [body Hb] _ IH]; simpl; constructor; [|exact IH].
  exists body. split; [exact Hb|].
  unfold file_content. now rewrite Hb, append_assoc.
Qed.

Lemma main_writes_messages_witness :
  map fst (files (fst (main sample_export sample_arguments)))
  = ["posts/2021-04/1.md"; "posts/2021-03/3.md"].
Proof.
  exact (proj1 (main_writes_messages sample_export sample_arguments
                  (fst (main sample_export sample_arguments)) eq_refl)).
Defined.

(** X15. A run that ends with an exception has still printed the first
    line and the labels of the posts up to and including the one that
    failed, and has left a file for each of them; the file of the post
    that failed holds the front matter and an empty line only. *)
Theorem main_stops_at_failure (data : export) (args : arguments) (e : exn) :
  snd (main data args) = Some e ->
  exists (before : list post) (failed : post),
    (exists k : nat,
        (before ++ [failed])%list
        = firstn k (filter is_message (data_messages data)))
    /\ render args (make_alias data args) failed = Raise e
    /\ Forall (fun p => exists body, render args (make_alias data args) p = Ok body)
              before
    /\ stdout (fst (main data args))
       = processing_line (Py.len (data_messages data)) (canonical_alias data args)
         :: entered_buckets None (map post_subpath (before ++ [failed]))
    /\ map fst (files (fst (main data args)))
       = map (post_path args) (before ++ [failed])
    /\ In (post_path args failed, front_matter data failed ++ NL)
          (files (fst (main data args))).
Proof.
  rewrite main_eq. cbv zeta. cbn [fst snd stdout files].
  set (alias := make_alias data args).
  destruct (attempted_prefix args alias (data_messages data)) as [k Hk].
  revert Hk. generalize (filter is_message (data_messages data)) as msgs.
  generalize (data_messages data) as posts. intros posts msgs Hk Hf.
  assert (Hs : exists before failed,
             attempted args alias posts = (before ++ [failed])%list
             /\ render args alias failed = Raise e
             /\ Forall (fun p => exists body, render args alias p = Ok body) before).
  { clear Hk. induction posts as [|p rest IH]; simpl in *; [discriminate|].
    destruct (is_message p); [|exact (IH Hf)].
    destruct (render args alias p) as [body|e'] eqn:E.
    - destruct (IH Hf) as (before & failed & -> & Hr & HF).
      exists (p :: before), failed.
      repeat split; [exact Hr | constructor; [now exists body | exact HF]].
    - injection Hf as ->. exists [], p. now repeat split. }
  destruct Hs as (before & failed & Ha & Hr & HF).
  exists before, failed. rewrite Ha in *.
  repeat split; [now exists k | exact Hr | exact HF | now rewrite map_map |].
  rewrite map_app. apply in_or_app. right. left.
  unfold file_content. now rewrite Hr, append_nil_r.
Qed.

Lemma main_stops_at_failure_witness :
  snd (main broken_export default_arguments) = Some (KeyError "href")
  /\ stdout (fst (main broken_export default_arguments))
     = ["Processing 3 posts in 1234567"; "2021-03"; "2021-04"]
  /\ map fst (files (fst (main broken_export default_arguments)))
     = ["posts/2021-03/1.md"; "posts/2021-04/2.md"].
Proof.
  split; [reflexivity|].
  destruct (main_stops_at_failure broken_export default_arguments
              (KeyError "href") eq_refl)
    as (before & failed & _ & _ & _ & _ & _ & _).
  split; reflexivity.
Defined.

Lemma add_dir_In (ds : list string) (d x : string) :
  In x (add_dir ds d) <-> In x ds \/ x = d.
Proof.
  unfold add_dir. destruct (existsb (String.eqb d) ds) eqn:E.
  - split; [now left|]. intros [H| ->]; [exact H|].
    apply existsb_exists in E. destruct E as (y & Hy & Hd).
    apply String.eqb_eq in Hd. now subst.
  - rewrite in_app_iff. simpl. intuition.
Qed.

Lemma add_dir_NoDup (ds : list string) (d : string) :
  NoDup ds -> NoDup (add_dir ds d).
Proof.
  intros Hn. unfold add_dir. destruct (existsb (String.eqb d) ds) eqn:E; [exact Hn|].
  apply NoDup_app; [exact Hn | repeat constructor; intros [] |].
  intros x Hx [Hd|[]]. subst x.
  assert (Ht : existsb (String.eqb d) ds = true)
    by (apply existsb_exists; exists d; split; [exact Hx | apply String.eqb_refl]).
  congruence.
Qed.

Lemma fold_add_dir (l ds : list string) :
  NoDup ds ->
  NoDup (fold_left add_dir l ds)
  /\ forall x, In x (fold_left add_dir l ds) <-> In x ds \/ In x l.
Proof.
  revert ds. induction l as [|d l IH]; intros ds Hn; simpl.
  - split; [exact Hn | intuition].
  - destruct (IH (add_dir ds d) (add_dir_NoDup ds d Hn)) as [H1 H2].
    split; [exact H1|]. intros x. rewrite H2, add_dir_In. intuition.
Qed.

(** X16. After a run that ends normally no folder has been made twice,
    and the folders made are the output folder and the folder of the
    bucket of each post of type [message]; an entry of another type makes
    no folder. *)
Theorem main_folders (data : export) (args : arguments) (w : world) :
  main data args = (w, None) ->
  NoDup (dirs w)
  /\ forall d : string,
      In d (dirs w)
      <-> d = args_out_dir args
          \/ exists p : post,
              In p (data_messages data) /\ post_type p = "message"
              /\ d = bucket_dir args p.
Proof.
  rewrite main_eq. cbv zeta. intros H. injection H as <- Hf.
  destruct (attempted_all _ _ _ Hf) as [-> _]. cbn [dirs].
  destruct (fold_add_dir
              (map (bucket_dir args) (filter is_message (data_messages data)))
              [args_out_dir args]) as [Hn Hin];
    [repeat constructor; intros []|].
  split; [exact Hn|]. intros d. rewrite Hin. simpl. split.
  - intros [[<-|[]]|Hd]; [now left|]. right.
    apply in_map_iff in Hd. destruct Hd as (p & <- & Hp).
    apply filter_In in Hp. destruct Hp as [Hp Hm].
    exists p. repeat split; [exact Hp | now apply String.eqb_eq].
  - intros [->|(p & Hp & Hm & ->)]; [now left; left|]. right.
    apply in_map, filter_In. split; [exact Hp | now apply String.eqb_eq].
Qed.

Lemma main_folders_witness :
  NoDup (dirs (fst (main sample_export sample_arguments)))
  /\ dirs (fst (main sample_export sample_arguments))
     = ["posts"; "posts/2021-04"; "posts/2021-03"].
Proof.
  split; [|reflexivity].
  exact (proj1 (main_folders sample_export sample_arguments
                  (fst (main sample_export sample_arguments)) eq_refl)).
Defined.

(** X17. The entries that are not of type [message] change nothing but
    the number in the first line printed: without them the run ends the
    same way, with the same folders, the same files and the same labels. *)
Theorem main_ignores_other_entries (data : export) (args : arguments) :
  let messages := set_messages data (filter is_message (data_messages data)) in
  snd (main messages args) = snd (main data args)
  /\ files (fst (main messages args)) = files (fst (main data args))
  /\ dirs (fst (main messages args)) = dirs (fst (main data args))
  /\ tl (stdout (fst (main messages args))) = tl (stdout (fst (main data args))).
Proof.
  intros messages. rewrite !main_eq. cbv zeta. cbn [fst snd stdout dirs files tl].
  change (make_alias messages args) with (make_alias data args).
  change (data_messages messages) with (filter is_message (data_messages data)).
  destruct (attempted_filter args (make_alias data args) (data_messages data))
    as [-> ->].
  repeat split.
Qed.

(** ** Paths of the files *)

Lemma count_append (c : ascii) (s t : string) :
  Py.count c (s ++ t) = Py.count c s + Py.count c t.
Proof.
  induction s as [|d s IH]; simpl; [reflexivity | rewrite IH; lia].
Qed.

Lemma count_substring (c : ascii) (s : string) :
  Py.count c s = 0 -> forall n m, Py.count c (substring n m s) = 0.
Proof.
  induction s as [|d s IH]; intros H n m.
  - now destruct n, m.
  - simpl in H. pose proof (count_nonneg c s) as Hn.
    destruct (Ascii.eqb d c) eqn:E; [lia|].
    destruct n as [|n]; [|apply IH; lia].
    destruct m as [|m]; [reflexivity|].
    simpl. rewrite E, IH by lia. reflexivity.
Qed.

Lemma count_repeat_other (c d : ascii) (n : nat) :
  d <> c -> Py.count c (Py.repeat_str (String d "") n) = 0.
Proof.
  intros Hd. apply Ascii.eqb_neq in Hd.
  induction n as [|n IH]; simpl; [reflexivity | now rewrite Hd, IH].
Qed.

Lemma count_slash_uint (d : Decimal.uint) :
  Py.count "/" (NilZero.string_of_uint d) = 0.
Proof.
  assert (H : forall u, Py.count "/" (NilEmpty.string_of_uint u) = 0)
    by (induction u; simpl; auto).
  destruct d; try apply H. reflexivity.
Qed.

Lemma count_slash_padded (w n : nat) : Py.count "/" (padded w n) = 0.
Proof.
  unfold padded, Py.zfill.
  now rewrite count_append, count_repeat_other, count_slash_uint.
Qed.

Lemma count_slash_subpath (p : post) : Py.count "/" (post_subpath p) = 0.
Proof.
  unfold post_subpath. apply count_substring. unfold str_datetime.
  fold (padded 4 (year (post_date p))) (padded 2 (month (post_date p)))
       (padded 2 (day (post_date p))) (padded 2 (hour (post_date p)))
       (padded 2 (minute (post_date p))) (padded 2 (second (post_date p))).
  rewrite !count_append, !count_slash_padded. reflexivity.
Qed.

Lemma count_slash_str_int (n : Z) : Py.count "/" (Py.str_int n) = 0.
Proof.
  unfold Py.str_int, NilZero.string_of_int.
  destruct (Z.to_int n) as [d|d]; [apply count_slash_uint|].
  simpl. apply count_slash_uint.
Qed.

Lemma startswith_absent (c : ascii) (s : string) :
  Py.count c s = 0 -> Py.startswith (String c "") s = false.
Proof.
  unfold Py.startswith. destruct s as [|d s]; [reflexivity|]. simpl.
  pose proof (count_nonneg c s) as Hn.
  destruct (ascii_dec c d) as [->|_]; [|reflexivity].
  rewrite Ascii.eqb_refl. lia.
Qed.

Lemma endswith_last_char (c : ascii) (s : string) :
  Py.endswith (String c "") s
  = match last_char s with
    | Some d => Ascii.eqb d c
    | None => false
    end.
Proof.
  unfold Py.endswith. cbn [String.length].
  induction s as [|a s IH]; [reflexivity|].
  destruct s as [|b s].
  - simpl. now destruct (Ascii.eqb a c).
  - cbn [String.length last_char] in *.
    replace (S (S (String.length s)) - 1)%nat with (S (String.length s)) by lia.
    replace (S (String.length s) - 1)%nat with (String.length s) in IH by lia.
    cbn [substring]. rewrite <- IH. reflexivity.
Qed.

Lemma last_char_append (s t : string) :
  t <> "" -> last_char (s ++ t) = last_char t.
Proof.
  intros Ht. induction s as [|a s IH]; [reflexivity|].
  simpl. destruct (s ++ t) as [|b u] eqn:E; [|exact IH].
  destruct s; simpl in E; [contradiction | discriminate].
Qed.

Lemma last_char_absent (c d : ascii) (s : string) :
  Py.count c s = 0 -> last_char s = Some d -> Ascii.eqb d c = false.
Proof.
  induction s as [|a s IH]; [discriminate|].
  simpl. pose proof (count_nonneg c s) as Hn.
  destruct (Ascii.eqb a c) eqn:E; [lia|]. rewrite Z.add_0_l.
  destruct s as [|b s]; [intros _ [= <-]; exact E | apply IH].
Qed.

Lemma endswith_absent (c : ascii) (s t : string) :
  t <> "" -> Py.count c t = 0 -> Py.endswith (String c "") (s ++ t) = false.
Proof.
  intros Ht Hc. rewrite endswith_last_char, (last_char_append s t Ht).
  destruct (last_char t) as [d|] eqn:E; [|reflexivity].
  now apply (last_char_absent c d t).
Qed.

Lemma bucket_dir_shape (args : arguments) (p : post) :
  bucket_dir args p = folder_prefix (args_out_dir args) ++ post_subpath p.
Proof.
  unfold bucket_dir, Py.path_join, folder_prefix.
  rewrite (startswith_absent "/" _ (count_slash_subpath p)).
  destruct (_ || _); [reflexivity | now rewrite append_assoc].
Qed.

Lemma post_path_eq (args : arguments) (p : post) :
  post_path args p
  = folder_prefix (args_out_dir args) ++ post_subpath p ++ "/"
    ++ Py.str_int (post_id p) ++ ".md".
Proof.
  unfold post_path, Py.path_join.
  rewrite startswith_absent
    by (rewrite count_append, count_slash_str_int; reflexivity).
  rewrite bucket_dir_shape.
  rewrite (endswith_absent "/" _ _ (post_subpath_nonempty p) (count_slash_subpath p)).
  replace (String.eqb _ "") with false.
  - cbn [orb]. now rewrite !append_assoc.
  - symmetry. apply String.eqb_neq. intros H.
    apply (f_equal String.length) in H. rewrite length_append in H.
    pose proof (post_subpath_nonempty p) as Hn.
    destruct (post_subpath p); [congruence | simpl in H; lia].
Qed.

(** X18. The file of a post is [<output folder>/<bucket>/<id>.md]: the
    output folder, a slash unless the folder is empty or ends with one,
    the bucket of the post, a slash, the id in decimal, and [.md]. Neither
    the bucket nor the file name holds a slash, so the file is one folder
    below the output folder, in the folder made for its bucket. *)
Theorem post_path_shape (args : arguments) (p : post) :
  post_path args p
  = folder_prefix (args_out_dir args) ++ post_subpath p ++ "/"
    ++ Py.str_int (post_id p) ++ ".md"
  /\ post_path args p
     = bucket_dir args p ++ "/" ++ Py.str_int (post_id p) ++ ".md"
  /\ Py.count "/" (post_subpath p) = 0
  /\ Py.count "/" (Py.str_int (post_id p) ++ ".md") = 0.
Proof.
  split; [apply post_path_eq|]. split.
  - now rewrite post_path_eq, bucket_dir_shape, !append_assoc.
  - split; [apply count_slash_subpath|].
    now rewrite count_append, count_slash_str_int.
Qed.

Lemma append_inv_head (s a b : string) : s ++ a = s ++ b -> a = b.
Proof. induction s as [|c s IH]; simpl; [auto | intros [= H]; auto]. Qed.

Lemma append_inv_tail (a b t : string) : a ++ t = b ++ t -> a = b.
Proof.
  revert b. induction a as [|c a IH]; intros [|d b] H; simpl in H.
  - reflexivity.
  - apply (f_equal String.length) in H. simpl in H. rewrite length_append in H. lia.
  - apply (f_equal String.length) in H. simpl in H. rewrite length_append in H. lia.
  - injection H as -> H. now rewrite (IH b H).
Qed.

(** Two strings cut at their first separator are equal piece by piece. *)
Lemma first_separator (c : ascii) (a b x y : string) :
  Py.count c a = 0 -> Py.count c b = 0 ->
  a ++ String c x = b ++ String c y -> a = b /\ x = y.
Proof.
  revert b. induction a as [|d a IH]; intros [|e b] Ha Hb H; simpl in *.
  - injection H as ->. now split.
  - injection H as <- _. rewrite Ascii.eqb_refl in Hb.
    pose proof (count_nonneg c b). lia.
  - injection H as -> _. rewrite Ascii.eqb_refl in Ha.
    pose proof (count_nonneg c a). lia.
  - injection H as -> H.
    pose proof (count_nonneg c a). pose proof (count_nonneg c b).
    destruct (Ascii.eqb e c); [lia|].
    destruct (IH b) as [-> ->]; [lia | lia | exact H | now split].
Qed.

Lemma to_int_not_nil (n : Z) :
  Z.to_int n <> Decimal.Pos Decimal.Nil /\ Z.to_int n <> Decimal.Neg Decimal.Nil.
Proof.
  rewrite <- (DecimalZ.of_to n) at 1 2. rewrite DecimalZ.to_of.
  destruct (Z.to_int n) as [d|d]; simpl; unfold Decimal.unorm;
    destruct (Decimal.nzhead d); split; discriminate.
Qed.

(** The decimal writing of an id tells the id. *)
Lemma str_int_inj (n m : Z) : Py.str_int n = Py.str_int m -> n = m.
Proof.
  unfold Py.str_int. intros H.
  apply (f_equal NilZero.int_of_string) in H.
  destruct (to_int_not_nil n) as [Hn1 Hn2], (to_int_not_nil m) as [Hm1 Hm2].
  rewrite !NilZero.isi in H by assumption.
  injection H as H. now apply DecimalZ.to_int_inj.
Qed.

(** X19. Two posts are written to the same file exactly when they have
    the same bucket and the same id: no other two posts of a run
    overwrite each other. *)
Theorem post_path_inj (args : arguments) (p q : post) :
  post_path args p = post_path args q
  <-> post_subpath p = post_subpath q /\ post_id p = post_id q.
Proof.
  split.
  - rewrite !post_path_eq. intros H. apply append_inv_head in H.
    apply first_separator in H; try apply count_slash_subpath.
    destruct H as [Hb Hf]. split; [exact Hb|].
    apply append_inv_tail in Hf. now apply str_int_inj.
  - intros [Hb Hi]. unfold post_path, bucket_dir. now rewrite Hb, Hi.
Qed.

(** ** Buckets and dates *)

Lemma append_inv_length (a b x y : string) :
  a ++ x = b ++ y -> String.length a = String.length b -> a = b.
Proof.
  revert b. induction a as [|c a IH]; intros [|d b] H L; simpl in *;
    try discriminate L; [reflexivity|].
  injection H as -> H. injection L as L. now rewrite (IH b H L).
Qed.

Lemma substring_whole (a b : string) :
  substring 0 (String.length a) (a ++ b) = a.
Proof. induction a as [|c a IH]; simpl; [now destruct b | now rewrite IH]. Qed.

Lemma substring_all (s : string) : substring 0 (String.length s) s = s.
Proof. induction s as [|c s IH]; simpl; [reflexivity | now rewrite IH]. Qed.

Lemma substring_skip (a b : string) (n m : nat) :
  substring (String.length a + n) m (a ++ b) = substring n m b.
Proof. induction a as [|c a IH]; simpl; [reflexivity | exact IH]. Qed.

Lemma decode_zeros (k : nat) (s : string) :
  decode_decimal (Py.repeat_str "0" k ++ s) = decode_decimal s.
Proof.
  induction k as [|k IH]; [reflexivity|].
  simpl. unfold decode_decimal in *. simpl.
  destruct (NilEmpty.uint_of_string (Py.repeat_str "0" k ++ s)) as [d|];
    simpl; rewrite <- IH; reflexivity.
Qed.

(** A padded number reads back as the number. *)
Lemma decode_padded (w n : nat) : decode_decimal (padded w n) = n.
Proof.
  unfold padded, Py.zfill. rewrite decode_zeros.
  rewrite <- (DecimalNat.Unsigned.of_to n) at 2.
  unfold decode_decimal.
  destruct (Nat.to_uint n) as [|d|d|d|d|d|d|d|d|d|d] eqn:E; try reflexivity;
    unfold NilZero.string_of_uint; now rewrite NilEmpty.usu.
Qed.

Lemma padded_length :
  (forall y, (y < (100 * 100))%nat -> String.length (padded 4 y) = 4%nat)
  /\ (forall m, (m < 100)%nat -> String.length (padded 2 m) = 2%nat).
Proof.
  assert (H4 : forallb (fun y => Nat.eqb (String.length (padded 4 y)) 4)
                       (seq 0 (100 * 100)) = true) by (vm_compute; reflexivity).
  assert (H2 : forallb (fun m => Nat.eqb (String.length (padded 2 m)) 2)
                       (seq 0 100) = true) by (vm_compute; reflexivity).
  rewrite forallb_forall in H4, H2. split.
  - intros y Hy. apply Nat.eqb_eq, H4, in_seq. lia.
  - intros m Hm. apply Nat.eqb_eq, H2, in_seq. lia.
Qed.

Lemma post_subpath_valid (p : post) :
  (year (post_date p) < (100 * 100))%nat ->
  (month (post_date p) < 100)%nat ->
  post_subpath p
  = padded 4 (year (post_date p)) ++ "-" ++ padded 2 (month (post_date p)).
Proof.
  intros Hy Hm. destruct padded_length as [H4 H2].
  unfold post_subpath, str_datetime.
  fold (padded 4 (year (post_date p))) (padded 2 (month (post_date p))).
  set (a := padded 4 (year (post_date p))).
  set (b := padded 2 (month (post_date p))).
  match goal with
  | |- substring 0 7 (a ++ "-" ++ b ++ ?rest) = _ =>
      replace (a ++ "-" ++ b ++ rest) with ((a ++ "-" ++ b) ++ rest)
        by now rewrite !append_assoc
  end.
  replace 7%nat with (String.length (a ++ "-" ++ b)).
  - apply substring_whole.
  - rewrite !length_append. subst a b. rewrite (H4 _ Hy), (H2 _ Hm). reflexivity.
Qed.

(** X20. For a year below 10000 and a month below 100 the bucket of a
    post is seven characters, the year on four digits, a dash and the month
    on two digits, and the year and the month read back from it. *)
Theorem bucket_format (p : post) :
  (year (post_date p) < (100 * 100))%nat ->
  (month (post_date p) < 100)%nat ->
  String.length (post_subpath p) = 7%nat
  /\ substring 4 1 (post_subpath p) = "-"
  /\ decode_decimal (substring 0 4 (post_subpath p)) = year (post_date p)
  /\ decode_decimal (substring 5 2 (post_subpath p)) = month (post_date p).
Proof.
  intros Hy Hm. destruct padded_length as [H4 H2].
  rewrite (post_subpath_valid p Hy Hm).
  set (a := padded 4 (year (post_date p))).
  set (b := padded 2 (month (post_date p))).
  assert (La : String.length a = 4%nat) by (apply H4, Hy).
  assert (Lb : String.length b = 2%nat) by (apply H2, Hm).
  repeat split.
  - rewrite !length_append, La, Lb. reflexivity.
  - replace 4%nat with (String.length a + 0)%nat by lia.
    rewrite substring_skip. now destruct b.
  - rewrite <- La, substring_whole. apply decode_padded.
  - replace 5%nat with (String.length a + 1)%nat by lia.
    rewrite substring_skip. cbn [append substring].
    rewrite <- Lb, substring_all. apply decode_padded.
Qed.

Lemma bucket_format_witness :
  post_subpath march_post = "2021-03"
  /\ decode_decimal (substring 0 4 (post_subpath march_post)) = 2021%nat
  /\ decode_decimal (substring 5 2 (post_subpath march_post)) = 3%nat.
Proof.
  split; [reflexivity|].
  assert (Hy : (year (post_date march_post) < (100 * 100))%nat)
    by (apply Nat.ltb_lt; vm_compute; reflexivity).
  assert (Hm : (month (post_date march_post) < 100)%nat)
    by (apply Nat.ltb_lt; vm_compute; reflexivity).
  destruct (bucket_format march_post Hy Hm) as (_ & _ & H1 & H2).
  split; [exact H1 | exact H2].
Defined.

(** X21. Two posts with years below 10000 and months below 100 fall in
    the same bucket exactly when they have the same year and the same
    month. *)
Theorem same_bucket_iff (p q : post) :
  (year (post_date p) < (100 * 100))%nat -> (month (post_date p) < 100)%nat ->
  (year (post_date q) < (100 * 100))%nat -> (month (post_date q) < 100)%nat ->
  post_subpath p = post_subpath q
  <-> year (post_date p) = year (post_date q)
      /\ month (post_date p) = month (post_date q).
Proof.
  intros Hyp Hmp Hyq Hmq.
  rewrite (post_subpath_valid p Hyp Hmp), (post_subpath_valid q Hyq Hmq).
  destruct padded_length as [H4 H2]. split.
  - intros H.
    assert (Ha : padded 4 (year (post_date p)) = padded 4 (year (post_date q))).
    { apply (append_inv_length _ _ _ _ H). now rewrite (H4 _ Hyp), (H4 _ Hyq). }
    rewrite Ha in H. apply append_inv_head in H. injection H as Hb.
    split.
    + rewrite <- (decode_padded 4 (year (post_date p))), Ha. apply decode_padded.
    + rewrite <- (decode_padded 2 (month (post_date p))), Hb. apply decode_padded.
  - intros [-> ->]. reflexivity.
Qed.

Lemma same_bucket_iff_witness :
  post_subpath march_post = post_subpath late_march_post.
Proof.
  assert (Hy : (2021 < (100 * 100))%nat)
    by (apply Nat.ltb_lt; vm_compute; reflexivity).
  assert (H3 : (3 < 100)%nat) by (apply Nat.ltb_lt; vm_compute; reflexivity).
  exact (proj2 (same_bucket_iff march_post late_march_post Hy H3 Hy H3)
               (conj eq_refl eq_refl)).
Defined.

(** ** Newlines at the end of a run *)

Lemma trailing_count_last (c : ascii) (s : string) :
  trailing_count c s = O \/ last_char s = Some c.
Proof.
  induction s as [|d s IH]; [now left|].
  destruct s as [|e s].
  - simpl. destruct (Ascii.eqb_spec d c) as [->|_]; [now right | now left].
  - change (last_char (String d (String e s))) with (last_char (String e s)).
    destruct IH as [IH|IH]; [left | now right].
    cbn [trailing_count] in *. rewrite IH. reflexivity.
Qed.

Lemma trailing_count_no_end (s : string) :
  Py.endswith NL s = false -> trailing_count Py.LF s = O.
Proof.
  unfold NL. rewrite endswith_last_char.
  destruct (trailing_count_last Py.LF s) as [H| ->]; [auto | discriminate].
Qed.

Lemma trailing_count_count (c : ascii) (s : string) :
  Z.of_nat (trailing_count c s) <= Py.count c s.
Proof.
  induction s as [|d s IH]; [simpl; lia|].
  cbn [trailing_count Py.count].
  destruct (Nat.eqb _ _); destruct (Ascii.eqb d c); cbn [andb]; lia.
Qed.

(** The empty lines of a split are at least the newlines at the end, and
    one more when the first line is empty. *)
Lemma trailing_count_split (s : string) :
  Z.of_nat (trailing_count Py.LF s)
  + (if String.eqb (hd "" (Py.split Py.LF s)) "" then 1 else 0)
  <= Py.list_count "" (Py.split Py.LF s).
Proof.
  induction s as [|c s IH]; [simpl; lia|].
  pose proof (split_nonempty Py.LF s) as Hn.
  pose proof (trailing_count_le Py.LF s) as Hle.
  cbn [Py.split trailing_count].
  destruct (Ascii.eqb c Py.LF) eqn:Hc.
  - cbn [hd Py.list_count]. rewrite String.eqb_refl, andb_true_r.
    destruct (Nat.eqb_spec (trailing_count Py.LF s) (String.length s)) as [E|E];
      [|destruct (String.eqb (hd "" (Py.split Py.LF s)) ""); lia].
    assert (Hh : hd "" (Py.split Py.LF s) = "").
    { destruct s as [|d s]; [reflexivity|]. simpl.
      destruct (Ascii.eqb d Py.LF) eqn:Hd; [reflexivity|]. exfalso.
      cbn [trailing_count String.length] in E. rewrite Hd, andb_false_r in E.
      pose proof (trailing_count_le Py.LF s). lia. }
    rewrite Hh in IH. simpl in IH. lia.
  - rewrite andb_false_r.
    destruct (Py.split Py.LF s) as [|h t]; [congruence|].
    cbn [hd Py.list_count] in *.
    destruct (String.eqb h ""); simpl; lia.
Qed.

Lemma appended_newlines_keep (text : string) :
  (trailing_count Py.LF text <= Z.to_nat (appended_newlines text))%nat.
Proof.
  unfold appended_newlines. destruct (Py.endswith NL text) eqn:E.
  - pose proof (trailing_count_split text) as H. simpl Py.int_of_bool.
    destruct (String.eqb _ _); lia.
  - rewrite (trailing_count_no_end text E). lia.
Qed.

Lemma wrapper_last (type before after : string) :
  In (type, (before, after)) wrappers ->
  exists pre d, after = pre ++ String d "" /\ d <> Py.LF.
Proof.
  unfold wrappers. intros H.
  destruct H as [H|[H|[H|[H|[H|[H|[]]]]]]]; injection H as _ _ <-.
  - exists "", "*"%char. split; [reflexivity | discriminate].
  - exists "*", "*"%char. split; [reflexivity | discriminate].
  - exists "", "`"%char. split; [reflexivity | discriminate].
  - exists "``", "`"%char. split; [reflexivity | discriminate].
  - exists "</u", ">"%char. split; [reflexivity | discriminate].
  - exists "</s", ">"%char. split; [reflexivity | discriminate].
Qed.

(** X22. The newlines a wrapped run (italic, bold, code, pre, underline,
    strikethrough) ends with are not lost with the stripping: the output
    ends with the number of empty lines times whether the text ends with a
    newline, which is never less than the text ends with. *)
Theorem wrapped_run_keeps_newlines (obj : text_object) (alias : list ident)
    (before after : string) :
  In (obj_type obj, (before, after)) wrappers ->
  exists out : string,
    parse_text_object obj alias = Ok (Some out)
    /\ trailing_count Py.LF out = Z.to_nat (appended_newlines (obj_text obj))
    /\ (trailing_count Py.LF (obj_text obj) <= trailing_count Py.LF out)%nat.
Proof.
  intros Hin. eexists.
  split; [exact (parse_text_object_wrapped obj alias before after Hin)|].
  destruct (wrapper_last _ _ _ Hin) as (pre & d & -> & Hd).
  assert (E : trailing_count Py.LF
                (before ++ Py.strip (obj_text obj) ++ (pre ++ String d "")
                 ++ Py.mul NL (appended_newlines (obj_text obj)))
              = Z.to_nat (appended_newlines (obj_text obj))).
  { replace (before ++ Py.strip (obj_text obj) ++ (pre ++ String d "")
             ++ Py.mul NL (appended_newlines (obj_text obj)))
      with (((before ++ Py.strip (obj_text obj) ++ pre) ++ String d "")
            ++ Py.repeat_str (String Py.LF "")
                             (Z.to_nat (appended_newlines (obj_text obj))))
      by (now rewrite !append_assoc).
    now apply trailing_count_after. }
  split; [exact E|]. rewrite E. apply appended_newlines_keep.
Qed.

Lemma wrapped_run_keeps_newlines_witness :
  exists out : string,
    parse_text_object padded_bold_run [] = Ok (Some out)
    /\ out = "**hi**" ++ NL ++ NL
    /\ (trailing_count Py.LF (obj_text padded_bold_run)
        <= trailing_count Py.LF out)%nat.
Proof.
  destruct (wrapped_run_keeps_newlines padded_bold_run [] "**" "**")
    as (out & H1 & _ & H3); [simpl; tauto|].
  exists out. split; [exact H1|]. split; [|exact H3].
  assert (H : parse_text_object padded_bold_run []
              = Ok (Some ("**hi**" ++ NL ++ NL))) by reflexivity.
  rewrite H in H1. now injection H1 as <-.
Defined.

(** X23. The output of the Link Resolver ends with as many newlines as
    the display text holds, when the display text ends with a newline, and
    with none otherwise; that is never less than the display text ends
    with. *)
Theorem text_link_format_newlines (text href : string) (alias : list ident) :
  exists out : string,
    text_link_format text href alias = Ok out
    /\ trailing_count Py.LF out
       = Z.to_nat (Py.count Py.LF text * Py.int_of_bool (Py.endswith NL text))
    /\ (trailing_count Py.LF text <= trailing_count Py.LF out)%nat.
Proof.
  assert (Hk : (trailing_count Py.LF text
                <= Z.to_nat (Py.count Py.LF text
                             * Py.int_of_bool (Py.endswith NL text)))%nat).
  { pose proof (trailing_count_count Py.LF text) as Hc.
    destruct (Py.endswith NL text) eqn:E; simpl Py.int_of_bool; [lia|].
    rewrite (trailing_count_no_end text E). lia. }
  destruct (self_referential_dec href alias) as [Hs|Hs];
    [rewrite (text_link_format_internal text href alias Hs)
    |rewrite (text_link_format_external text href alias Hs)];
    eexists; (split; [reflexivity|]).
  - assert (E : trailing_count Py.LF
                  ("[[" ++ last_segment href ++ "|" ++ Py.strip text ++ "]]"
                   ++ link_trailer text)
                = Z.to_nat (Py.count Py.LF text
                            * Py.int_of_bool (Py.endswith NL text))).
    { replace ("[[" ++ last_segment href ++ "|" ++ Py.strip text ++ "]]"
               ++ link_trailer text)
        with ((("[[" ++ last_segment href ++ "|" ++ Py.strip text ++ "]")
               ++ String "]" "")
              ++ Py.repeat_str (String Py.LF "")
                   (Z.to_nat (Py.count Py.LF text
                              * Py.int_of_bool (Py.endswith NL text))))
        by (now rewrite !append_assoc).
      now apply trailing_count_after. }
    split; [exact E | now rewrite E].
  - assert (E : trailing_count Py.LF
                  ("[" ++ Py.strip text ++ "](" ++ href ++ ")"
                   ++ link_trailer text)
                = Z.to_nat (Py.count Py.LF text
                            * Py.int_of_bool (Py.endswith NL text))).
    { replace ("[" ++ Py.strip text ++ "](" ++ href ++ ")" ++ link_trailer text)
        with ((("[" ++ Py.strip text ++ "](" ++ href) ++ String ")" "")
              ++ Py.repeat_str (String Py.LF "")
                   (Z.to_nat (Py.count Py.LF text
                              * Py.int_of_bool (Py.endswith NL text))))
        by (now rewrite !append_assoc).
      now apply trailing_count_after. }
    split; [exact E | now rewrite E].
Qed.

(** ** Lines of the front matter *)

Lemma count_lf_uint (d : Decimal.uint) :
  Py.count Py.LF (NilZero.string_of_uint d) = 0.
Proof.
  assert (H : forall u, Py.count Py.LF (NilEmpty.string_of_uint u) = 0)
    by (induction u; simpl; auto).
  destruct d; try apply H. reflexivity.
Qed.

Lemma count_lf_str_int (n : Z) : Py.count Py.LF (Py.str_int n) = 0.
Proof.
  unfold Py.str_int, NilZero.string_of_int.
  destruct (Z.to_int n) as [d|d]; [apply count_lf_uint|].
  simpl. apply count_lf_uint.
Qed.

Lemma count_lf_padded (w n : nat) : Py.count Py.LF (padded w n) = 0.
Proof.
  unfold padded, Py.zfill.
  rewrite count_append, count_repeat_other, count_lf_uint; [reflexivity | discriminate].
Qed.

Lemma count_lf_datetime (d : datetime) : Py.count Py.LF (str_datetime d) = 0.
Proof.
  unfold str_datetime.
  fold (padded 4 (year d)) (padded 2 (month d)) (padded 2 (day d))
       (padded 2 (hour d)) (padded 2 (minute d)) (padded 2 (second d)).
  rewrite !count_append, !count_lf_padded. reflexivity.
Qed.

(** X24. The front matter of a post is six lines, and more only by the
    newlines the author's name holds: the id, the date and the tag never
    break a line. *)
Theorem front_matter_lines (data : export) (p : post) :
  Py.count Py.LF (front_matter data p)
  = 6 + Py.count Py.LF (unlinked_name (post_from p)).
Proof.
  unfold front_matter, print_default_post_header.
  assert (Ht : Py.count Py.LF (nametag data p) = 0).
  { apply all_printable_count; [reflexivity|].
    unfold nametag. destruct (Py.contains _ _); [reflexivity|].
    apply replace_all_printable; [reflexivity | apply filter_all_printable]. }
  rewrite !count_append, count_lf_str_int, count_lf_datetime, Ht.
  set (k := Py.count Py.LF (unlinked_name (post_from p))).
  unfold NL, Py.LF. cbn [Py.count Ascii.eqb Bool.eqb andb]. lia.
Qed.
